(** * examples/ofa/pretrain.py: the pretraining launcher, embedded and verified

    The launcher merges configuration sources into a parameter set, seeds
    the random generators, and then assembles a text encoder, the task
    constructor, a graph model, the data module and the evaluation kit
    before handing everything to the training driver.

    The script is embedded as a program over the calls it makes into the
    rest of the code base ([Prog], [extE]); the decisions the script takes
    itself (string dispatch, arithmetic, list handling) are ordinary
    functions. *)

From Stdlib Require Import ZArith Ascii.
From stdpp Require Import base tactics option list strings pretty gmap fin_maps.

#[local] Set Warnings "-register-all".
Local Open Scope Z_scope.

(** ** Python values *)

(** A reference to an object owned by code outside the script. *)
Definition handle := nat.
Bind Scope nat_scope with handle.

(** The values a parameter can hold.  [PyOpaque] stands for every object
    the script never looks into (a float, a mapping, a class instance):
    it is not [None], not a [str], and compares unequal to every [str]. *)
Inductive pyval :=
| PyNone
| PyBool (b : bool)
| PyInt (z : Z)
| PyStr (s : string)
| PyList (l : list pyval)
| PyOpaque (h : handle).

(** The exceptions the script can end with.  [Failure] is an exception
    raised inside a called component. *)
Inductive exn :=
| AttributeError (name : string)
| IndexError
| TypeError
| ValueError
| Failure (what : string).

(** A flat mapping from option name to value: a YAML document, the merged
    dict, and the attribute dict of the [SimpleNamespace]. *)
Abbreviation dict := (gmap string pyval).

(** [isinstance(v, str)] *)
Definition isinstance_str (v : pyval) : bool :=
  match v with PyStr _ => true | _ => false end.

(** [v is not None] *)
Definition is_not_None (v : pyval) : bool :=
  match v with PyNone => false | _ => true end.

(** [v == s] for a [str] literal [s]. *)
Definition eq_str (v : pyval) (s : string) : bool :=
  match v with PyStr t => bool_decide (t = s) | _ => false end.

(** ** [str.split(",")] and [str.strip()]

    A [str] is modelled as a [string] whose characters are the code points
    below 256. *)

Module Str.

(** [s.split(c)] for a one-character separator: the pieces between the
    occurrences of [c], empty pieces included. *)
Fixpoint split (c : ascii) (s : string) : list string :=
  match s with
  | EmptyString => [EmptyString]
  | String a s' =>
      if bool_decide (a = c) then EmptyString :: split c s'
      else match split c s' with
           | p :: ps => String a p :: ps
           | [] => [String a EmptyString]
           end
  end.

(** [c.join(ps)] *)
Fixpoint join (c : ascii) (ps : list string) : string :=
  match ps with
  | [] => EmptyString
  | [p] => p
  | p :: ps' => p +:+ String c (join c ps')
  end.

(** [ch.isspace()] on code points below 256: tab to carriage return,
    the four separators 0x1c-0x1f, space, NEL and no-break space. *)
Definition isspace (a : ascii) : bool :=
  let n := N_of_ascii a in
  ((9 <=? n) && (n <=? 13) || (28 <=? n) && (n <=? 32)
   || (n =? 133) || (n =? 160))%N.

Fixpoint lstrip (s : string) : string :=
  match s with
  | EmptyString => EmptyString
  | String a s' => if isspace a then lstrip s' else s
  end.

Fixpoint rstrip (s : string) : string :=
  match s with
  | EmptyString => EmptyString
  | String a s' =>
      match rstrip s' with
      | EmptyString => if isspace a then EmptyString else String a EmptyString
      | r => String a r
      end
  end.

(** [s.strip()] *)
Definition strip (s : string) : string := rstrip (lstrip s).

(** Every character of [s] is whitespace. *)
Fixpoint blank (s : string) : bool :=
  match s with
  | EmptyString => true
  | String a s' => isspace a && blank s'
  end.

Fixpoint mem (c : ascii) (s : string) : bool :=
  match s with
  | EmptyString => false
  | String a s' => bool_decide (a = c) || mem c s'
  end.

Fixpoint count (c : ascii) (s : string) : nat :=
  match s with
  | EmptyString => 0%nat
  | String a s' => ((if bool_decide (a = c) then 1 else 0) + count c s')%nat
  end.

Definition first (s : string) : option ascii :=
  match s with EmptyString => None | String a _ => Some a end.

Fixpoint last (s : string) : option ascii :=
  match s with
  | EmptyString => None
  | String a EmptyString => Some a
  | String _ s' => last s'
  end.

End Str.

(** ** Evaluation splits, scorers and the evaluation kit *)

(** Modelled from the spec: the dataset class of the task constructor is
    not part of this file.  An evaluation split descriptor is a record
    holding a split name, a metric kind, a class count and an evaluation
    callback reference ([dt.state_name], [dt.metric], [dt.classes] and
    [dt.meta_data["eval_func"]] in the script). *)
Record split := Split {
  state_name : string;
  metric : string;
  classes : Z;
  eval_func : handle;
}.

(** What [tasks.make_full_dm_list] returns, as far as the script reads
    it: [text_dataset["val"]] and [text_dataset["test"]]. *)
Record text_dataset := TextDataset {
  td_val : list split;
  td_test : list split;
}.

(** The scorer constructor calls of the script:
    [Accuracy(task=.., num_classes=..)], [AUROC(task=..)],
    [MultiApr(num_labels=..)] and [MultiAuc(num_labels=..)]. *)
Inductive scorer :=
| Accuracy (task : string) (num_classes : Z)
| AUROC (task : string)
| MultiApr (num_labels : Z)
| MultiAuc (num_labels : Z).

(** [flat_binary_func], passed by reference. *)
Inductive flat_fn := flat_binary_func.

(** The arguments of the [EvalKit(...)] call. *)
Record eval_kit_args := EvalKitArgs {
  ek_eval_metric : list string;
  ek_evlter : list handle;
  ek_loss : handle;
  ek_eval_funcs : list handle;
  ek_flat_func : flat_fn;
  ek_eval_mode : string;
  ek_exp_prefix : string;
  ek_eval_state : list string;
  ek_val_monitor_state : string;
  ek_test_monitor_state : string;
}.

(** The four metric kinds the dispatch knows. *)
Definition known_metric (m : string) : bool :=
  bool_decide (m ∈ ["acc"; "auc"; "apr"; "aucmulti"]).

(** The two head classes of [models.model]. *)
Inductive bin_head := BinGraphModel | BinGraphAttModel.

(** Where a YAML file is read from: a file of the [configs] directory
    next to the script, or the path given to [--override]. *)
Inductive yaml_path :=
| ConfigFile (name : string)
| UserFile (path : string).

(** ** Calls into the rest of the code base

    [extE R] lists the calls the script makes into code it does not
    define, each with the arguments the script passes, in the order and
    under the names of the source; [R] is what the call gives back.
    Keyword arguments that are constants of the script ([task_dim=1],
    [save_model=False], [reload_freq=1], the scheduler's [15, 0.5]) are
    carried where they are integers or booleans. *)
Inductive extE : Type -> Type :=
| LoadYaml (path : yaml_path) : extE dict
| SetupExp (mod_params : dict) : extE dict
| SetRandomSeed (seed : pyval) : extE unit
| SetFloat32MatmulPrecision (precision : string) : extE unit
| Print (params : dict) : extE unit
| GetAvailableDevices : extE (handle * list handle)
| SentenceEncoder (llm_name llm_b_size : pyval) : extE handle
| UnifiedTaskConstructor (task_names load_texts : pyval) (encoder : handle)
    (task_config_lookup data_config_lookup : dict)
    (batch_size sample_size : pyval) : extE handle
| ConstructExp (tasks : handle) : extE (pyval * pyval)
| FlushModel (encoder : handle) : extE unit
| PyGRGCNEdge (num_layers : pyval) (num_rels : Z) (inp_dim out_dim : pyval)
    (drop_ratio JK : pyval) : extE handle
| BinModel (cls : bin_head) (model : handle) (llm_name outdim : pyval)
    (task_dim : Z) (add_rwpe dropout : pyval) : extE handle
| MakeTrainData (tasks : handle) (data_multiple min_ratio : pyval)
    (data_val_index : pyval) : extE handle
| MakeFullDmList (tasks : handle) (data_multiple min_ratio : pyval)
    (train_data : handle) : extE text_dataset
| DataModule (data : text_dataset) (gpu_size : nat) (num_workers : pyval)
    : extE handle
| BCEWithLogitsLoss : extE handle
| NewScorer (sc : scorer) : extE handle
| EvalKit (args : eval_kit_args) : extE handle
| ModelParameters (model : handle) : extE handle
| Adam (parameters : handle) (lr weight_decay : pyval) : extE handle
| StepLR (optimizer : handle) (step_size : Z) : extE handle
| ExpConfig (name : string) (optimizer train_data lr_scheduler : handle)
    : extE handle
| SetStateName (exp_config : handle) (attr : string) (names : list string)
    : extE unit
| GraphPredLightning (exp_config model metrics : handle) : extE handle
| LightningFit (model : handle) (datamodule : pyval) (metrics : handle)
    (num_epochs : pyval) (strategy : string) (save_model : bool)
    (load_best : pyval) (reload_freq : Z) (test_rep val_interval : pyval)
    : extE (pyval * pyval)
| Interp (op : string) (args : list pyval) : extE pyval.

(** A program: it returns, raises, or makes a call and goes on with the
    answer. *)
Inductive Prog (A : Type) : Type :=
| Ret (a : A)
| Raise (e : exn)
| Call {R : Type} (c : extE R) (k : R -> Prog A).

Arguments Ret {A} a.
Arguments Raise {A} e.
Arguments Call {A R} c k.

Fixpoint bind {A B : Type} (m : Prog A) (f : A -> Prog B) : Prog B :=
  match m with
  | Ret a => f a
  | Raise e => Raise e
  | Call c k => Call c (fun r => bind (k r) f)
  end.

#[global] Instance prog_ret : MRet Prog := @Ret.
#[global] Instance prog_bind : MBind Prog := fun A B f m => bind m f.
#[global] Instance prog_fmap : FMap Prog :=
  fun A B f m => bind m (fun a => Ret (f a)).

(** A call whose answer is the result. *)
Definition call {R : Type} (c : extE R) : Prog R := Call c Ret.

(** What happened at one call: the call and either the exception it
    raised or its answer. *)
Inductive entry : Type :=
| Called {R : Type} (c : extE R) (r : exn + R).

(** The environment answers every call, knowing what happened so far. *)
Definition env : Type := forall R : Type, list entry -> extE R -> exn + R.

(** Running a program from a history: the history at the end and the
    outcome.  An exception raised by a call ends the run. *)
Fixpoint run {A : Type} (w : env) (hist : list entry) (p : Prog A)
  : list entry * (exn + A) :=
  match p with
  | Ret a => (hist, inr a)
  | Raise e => (hist, inl e)
  | Call c k =>
      match w _ hist c with
      | inl e => (hist ++ [Called c (inl e)], inl e)
      | inr r => run w (hist ++ [Called c (inr r)]) (k r)
      end
  end.

Definition trace {A : Type} (w : env) (p : Prog A) : list entry :=
  (run w [] p).1.

Definition outcome {A : Type} (w : env) (p : Prog A) : exn + A :=
  (run w [] p).2.

(** [params.name] on the namespace: a missing attribute raises. *)
Definition getattr (params : dict) (name : string) : Prog pyval :=
  match params !! name with
  | Some v => Ret v
  | None => Raise (AttributeError name)
  end.

(** [hasattr(params, name)] *)
Definition hasattr (params : dict) (name : string) : bool :=
  bool_decide (is_Some (params !! name)).

(** [names[0]] on a list: an empty list raises. *)
Definition index0 {A : Type} (l : list A) : Prog A :=
  match l with
  | x :: _ => Ret x
  | [] => Raise IndexError
  end.

(** A list comprehension whose element expression makes calls. *)
Fixpoint for_each {A B : Type} (f : A -> Prog B) (l : list A)
  : Prog (list B) :=
  match l with
  | [] => Ret []
  | x :: l' => y ← f x; ys ← for_each f l'; Ret (y :: ys)
  end.

(** A [for] loop that carries a value from round to round. *)
Fixpoint for_loop {A S : Type} (body : S -> A -> Prog S) (s : S) (l : list A)
  : Prog S :=
  match l with
  | [] => Ret s
  | x :: l' => s' ← body s x; for_loop body s' l'
  end.

(** ** Operators on values *)

(** [bool] is a subclass of [int]. *)
Definition as_int (v : pyval) : option Z :=
  match v with
  | PyInt z => Some z
  | PyBool b => Some (if b then 1 else 0)
  | _ => None
  end.

(** [a + b].  Integers add, strings and lists concatenate, [None] and
    mixed operands raise; with an operand the model does not look into,
    the answer is the environment's. *)
Definition py_add (a b : pyval) : Prog pyval :=
  match as_int a, as_int b with
  | Some x, Some y => Ret (PyInt (x + y))
  | _, _ =>
      match a, b with
      | PyStr s, PyStr t => Ret (PyStr (s +:+ t))
      | PyList l, PyList m => Ret (PyList (l ++ m))
      | PyOpaque _, _ | _, PyOpaque _ => call (Interp "+" [a; b])
      | _, _ => Raise TypeError
      end
  end.

Fixpoint chars (s : string) : list pyval :=
  match s with
  | EmptyString => []
  | String a s' => PyStr (String a EmptyString) :: chars s'
  end.

(** [a += s] for a [str] on the right: a [str] is extended, a list takes
    the characters one by one, [None] and numbers raise. *)
Definition py_iadd_str (a : pyval) (s : string) : Prog pyval :=
  match a with
  | PyStr t => Ret (PyStr (t +:+ s))
  | PyList l => Ret (PyList (l ++ chars s))
  | PyOpaque _ => call (Interp "+=" [a; PyStr s])
  | _ => Raise TypeError
  end.

(** The text of [v] inside an f-string, [f"{v}"]. *)
Definition format_value (v : pyval) : Prog string :=
  match v with
  | PyStr s => Ret s
  | PyNone => Ret "None"
  | PyBool b => Ret (if b then "True" else "False")
  | PyInt z => Ret (pretty z)
  | _ =>
      r ← call (Interp "format" [v]);
      match r with PyStr s => Ret s | _ => Raise TypeError end
  end.

(** ** Merging the configuration sources *)

(** Modelled from the spec: [combine_dict] of [gp.utils.utils] is not part
    of this file.  The sources are merged into one flat mapping, "with
    later sources taking precedence". *)
Definition combine_dict (configs : list dict) : dict :=
  foldl (fun combined d => d ∪ combined) ∅ configs.

(** Modelled from the spec: [merge_mod] of [gp.utils.utils] is not part of
    this file.  Each command-line override [key=value], given here with
    its key and its value apart, is written into the mapping in the order
    of the command line ("last-write-wins"). *)
Definition merge_mod (mod_params : dict) (opts : list (string * pyval))
  : dict :=
  foldl (fun params kv => <[kv.1 := kv.2]> params) mod_params opts.

(** What [parser.parse_args()] gives: the path of [--override], if any,
    and the trailing overrides. *)
Record cli := Cli {
  override : option string;
  opts : list (string * pyval);
}.

(** [configs] as the script fills it: the default configuration, then
    the override file when one is given. *)
Definition configs_of (base : dict) (override_config : option dict)
  : list dict :=
  match override_config with
  | Some oc => [base; oc]
  | None => [base]
  end.

(** [mod_params] after [combine_dict] over [configs] and [merge_mod]. *)
Definition merged_params (base : dict) (override_config : option dict)
  (opts : list (string * pyval)) : dict :=
  merge_mod (combine_dict (configs_of base override_config)) opts.

(** ** [main(params)] *)

(** The list of task names: a [str] is split on commas and every piece
    stripped; any other value is taken as it is. *)
Definition task_names_of (v : pyval) : pyval :=
  match v with
  | PyStr s => PyList ((fun a => PyStr (Str.strip a)) <$> Str.split "," s)
  | _ => v
  end.

(** Step 1, "Initiate task constructor". *)
Definition init_tasks (params : dict) : Prog (handle * pyval) :=
  llm_name ← getattr params "llm_name";
  llm_b_size ← getattr params "llm_b_size";
  encoder ← call (SentenceEncoder llm_name llm_b_size);
  task_config_lookup ← call (LoadYaml (ConfigFile "task_config.yaml"));
  data_config_lookup ← call (LoadYaml (ConfigFile "data_config.yaml"));
  task_names ← task_names_of <$> getattr params "task_names";
  load_texts ← getattr params "load_texts";
  batch_size ← getattr params "batch_size";
  train_sample_size ← getattr params "train_sample_size";
  tasks ← call (UnifiedTaskConstructor task_names load_texts encoder
                  task_config_lookup data_config_lookup
                  batch_size train_sample_size);
  '(val_task_index_lst, val_pool_mode) ← call (ConstructExp tasks);
  call (FlushModel encoder);;
  Ret (tasks, val_task_index_lst).

(** [params.emb_dim + (params.rwpe if params.rwpe is not None else 0)] *)
Definition out_dim (params : dict) : Prog pyval :=
  emb_dim ← getattr params "emb_dim";
  rwpe ← getattr params "rwpe";
  py_add emb_dim (if is_not_None rwpe then rwpe else PyInt 0).

(** [BinGraphAttModel if params.JK == "none" else BinGraphModel] *)
Definition bin_model (params : dict) : Prog bin_head :=
  JK ← getattr params "JK";
  Ret (if eq_str JK "none" then BinGraphAttModel else BinGraphModel).

(** Step 2, "Load model". *)
Definition load_model (params : dict) : Prog handle :=
  out_dim ← out_dim params;
  num_layers ← getattr params "num_layers";
  dropout ← getattr params "dropout";
  JK ← getattr params "JK";
  gnn ← call (PyGRGCNEdge num_layers 5 out_dim out_dim dropout JK);
  cls ← bin_model params;
  llm_name ← getattr params "llm_name";
  rwpe ← getattr params "rwpe";
  dropout ← getattr params "dropout";
  call (BinModel cls gnn llm_name out_dim 1 rwpe dropout).

(** [data_multiple] and [min_ratio]: the attribute if there is one, its
    pieces read as floats when it is a [str], and [[1]] otherwise. *)
Definition float_list (params : dict) (name : string) : Prog pyval :=
  if hasattr params name then
    v ← getattr params name;
    match v with
    | PyStr s =>
        PyList <$> for_each (fun a => call (Interp "float" [PyStr a]))
                            (Str.split "," s)
    | _ => Ret v
    end
  else Ret (PyList [PyInt 1]).

(** Step 3, "Construct datasets and lightning datamodule"; the data
    module is stored in [params.datamodule]. *)
Definition make_data (params : dict) (gpu_size : nat) (tasks : handle)
  (val_task_index_lst : pyval) : Prog (dict * handle * text_dataset) :=
  data_multiple ← float_list params "d_multiple";
  min_ratio ← float_list params "d_min_ratio";
  train_data ← call (MakeTrainData tasks data_multiple min_ratio
                       val_task_index_lst);
  text_dataset ← call (MakeFullDmList tasks data_multiple min_ratio
                         train_data);
  num_workers ← getattr params "num_workers";
  datamodule ← call (DataModule text_dataset gpu_size num_workers);
  Ret (<["datamodule" := PyOpaque datamodule]> params, train_data,
       text_dataset).

(** One round of the loop [for dt in eval_data: if dt.metric == ...]:
    the constructor of the split's metric kind is called and what it
    returns is appended. *)
Definition add_scorer (evlter : list handle) (dt : split)
  : Prog (list handle) :=
  if decide (metric dt = "acc") then
    h ← call (NewScorer (Accuracy "multiclass" (classes dt)));
    Ret (evlter ++ [h])
  else if decide (metric dt = "auc") then
    h ← call (NewScorer (AUROC "binary"));
    Ret (evlter ++ [h])
  else if decide (metric dt = "apr") then
    h ← call (NewScorer (MultiApr (classes dt)));
    Ret (evlter ++ [h])
  else if decide (metric dt = "aucmulti") then
    h ← call (NewScorer (MultiAuc (classes dt)));
    Ret (evlter ++ [h])
  else Ret evlter.

(** [evlter = []] followed by the loop over [eval_data]. *)
Definition build_evlter (eval_data : list split) : Prog (list handle) :=
  for_loop add_scorer [] eval_data.

(** [loss = torch.nn.BCEWithLogitsLoss()] and the scorer loop. *)
Definition make_scorers (eval_data : list split)
  : Prog (handle * list handle) :=
  loss ← call BCEWithLogitsLoss;
  evlter ← build_evlter eval_data;
  Ret (loss, evlter).

(** The arguments of [EvalKit(...)], given the loss, the scorers and the
    two monitor names. *)
Definition eval_kit_for (text_dataset : text_dataset) (loss : handle)
  (evlter : list handle) (val_monitor_state test_monitor_state : string)
  : eval_kit_args :=
  let eval_data := td_val text_dataset ++ td_test text_dataset in
  let val_state := state_name <$> td_val text_dataset in
  let test_state := state_name <$> td_test text_dataset in
  {| ek_eval_metric := metric <$> eval_data;
     ek_evlter := evlter;
     ek_loss := loss;
     ek_eval_funcs := eval_func <$> eval_data;
     ek_flat_func := flat_binary_func;
     ek_eval_mode := "max";
     ek_exp_prefix := "";
     ek_eval_state := val_state ++ test_state;
     ek_val_monitor_state := val_monitor_state;
     ek_test_monitor_state := test_monitor_state |}.

(** Step 4, "Initiate evaluation kit": the loss and the scorers are
    made first; the arguments of the [EvalKit] call are then evaluated
    from left to right, [val_state[0]] and [test_state[0]] last, and the
    call is made after them. *)
Definition init_eval_kit (text_dataset : text_dataset) : Prog handle :=
  let eval_data := td_val text_dataset ++ td_test text_dataset in
  let val_state := state_name <$> td_val text_dataset in
  let test_state := state_name <$> td_test text_dataset in
  '(loss, evlter) ← make_scorers eval_data;
  val_monitor_state ← index0 val_state;
  test_monitor_state ← index0 test_state;
  call (EvalKit (eval_kit_for text_dataset loss evlter
                   val_monitor_state test_monitor_state)).

(** Step 5, "Initiate optimizer, scheduler and lightning model module". *)
Definition init_lightning (params : dict) (model train_data metrics : handle)
  (text_dataset : text_dataset) : Prog handle :=
  parameters ← call (ModelParameters model);
  lr ← getattr params "lr";
  l2 ← getattr params "l2";
  optimizer ← call (Adam parameters lr l2);
  scheduler ← call (StepLR optimizer 15);
  exp_config ← call (ExpConfig "" optimizer train_data scheduler);
  call (SetStateName exp_config "val_state_name"
          (state_name <$> td_val text_dataset));;
  call (SetStateName exp_config "test_state_name"
          (state_name <$> td_test text_dataset));;
  call (GraphPredLightning exp_config model metrics).

(** ["deepspeed_stage_2" if gpu_size > 1 else "auto"] *)
Definition strategy (gpu_size : nat) : string :=
  if (1 <? gpu_size)%nat then "deepspeed_stage_2" else "auto".

(** Step 6, "Start training and logging". *)
Definition fit (params : dict) (gpu_size : nat) (pred_model metrics : handle)
  : Prog unit :=
  datamodule ← getattr params "datamodule";
  num_epochs ← getattr params "num_epochs";
  load_best ← getattr params "load_best";
  test_rep ← getattr params "test_rep";
  val_interval ← getattr params "val_interval";
  call (LightningFit pred_model datamodule metrics num_epochs
          (strategy gpu_size) false load_best 1 test_rep val_interval);;
  Ret ().

Definition main (params : dict) : Prog unit :=
  '(device, gpu_ids) ← call GetAvailableDevices;
  let gpu_size := length gpu_ids in
  '(tasks, val_task_index_lst) ← init_tasks params;
  model ← load_model params;
  '(params, train_data, text_dataset) ←
    make_data params gpu_size tasks val_task_index_lst;
  metrics ← init_eval_kit text_dataset;
  pred_model ← init_lightning params model train_data metrics text_dataset;
  fit params gpu_size pred_model metrics.

(** ** The script body under [if __name__ == "__main__"] *)

(** Lines up to [setup_exp(mod_params)]: the parameter set. *)
Definition load_params (args : cli) : Prog dict :=
  base ← call (LoadYaml (ConfigFile "default_config.yaml"));
  override_config ←
    match override args with
    | Some path => Some <$> call (LoadYaml (UserFile path))
    | None => Ret None
    end;
  call (SetupExp (merged_params base override_config (opts args))).

(** After the seed is set: from [torch.set_float32_matmul_precision] to
    [main(params)]. *)
Definition launch (params : dict) : Prog unit :=
  call (SetFloat32MatmulPrecision "high");;
  let params := <["log_project" := PyStr "full_cdm"]> params in
  exp_name ← getattr params "exp_name";
  llm_name ← getattr params "llm_name" ≫= format_value;
  exp_name ← py_iadd_str exp_name ("_" +:+ llm_name +:+ "_ofa1");
  let params := <["exp_name" := exp_name]> params in
  call (Print params);;
  main params.

(** The namespace made of [mod_params], [set_random_seed(params.seed)]
    and the rest of the script. *)
Definition seed_and_run (params : dict) : Prog unit :=
  seed ← getattr params "seed";
  call (SetRandomSeed seed);;
  launch params.

Definition script (args : cli) : Prog unit :=
  load_params args ≫= seed_and_run.

(** ** Vocabulary for runs, and sample inputs *)

(** [p] does not begin with whitespace. *)
Definition no_leading_space (p : string) : Prop :=
  forall a, Str.first p = Some a -> Str.isspace a = false.

(** [p] does not end with whitespace. *)
Definition no_trailing_space (p : string) : Prop :=
  forall a, Str.last p = Some a -> Str.isspace a = false.

Definition four_kinds : list split :=
  [Split "val_a" "acc" 40 0; Split "val_b" "auc" 2 1;
   Split "test_a" "apr" 12 2; Split "test_b" "aucmulti" 7 3].

Definition odd_kind : text_dataset :=
  TextDataset [Split "val_a" "acc" 40 0; Split "val_b" "f1" 3 1]
              [Split "test_a" "auc" 2 2].

Definition jk_params (JK : pyval) : dict :=
  {[ "JK" := JK; "emb_dim" := PyInt 768; "rwpe" := PyInt 20 ]}.

Definition base_cfg : dict :=
  {[ "seed" := PyInt 1; "lr" := PyStr "0.0001"; "JK" := PyStr "none" ]}.

Definition override_cfg : dict :=
  {[ "lr" := PyStr "0.001"; "num_epochs" := PyInt 50;
     "seed" := PyInt 7 ]}.

Definition cli_opts : list (string * pyval) :=
  [("seed", PyInt 3); ("rwpe", PyInt 20); ("seed", PyInt 42)].

(** [only P p]: whatever the environment answers, every call [p] makes
    satisfies [P]. *)
Inductive only (P : entry -> Prop) {A : Type} : Prog A -> Prop :=
| only_Ret a : only P (Ret a)
| only_Raise e : only P (Raise e)
| only_Call {R} (c : extE R) k :
    (forall r, P (Called c r)) -> (forall r, only P (k r)) ->
    only P (Call c k).

(** The class a scorer constructor call goes to. *)
Definition scorer_class (sc : scorer) : string :=
  match sc with
  | Accuracy _ _ => "Accuracy"
  | AUROC _ => "AUROC"
  | MultiApr _ => "MultiApr"
  | MultiAuc _ => "MultiAuc"
  end.

(** The function or class a call goes to. *)
Definition callee {R : Type} (c : extE R) : string :=
  match c with
  | LoadYaml _ => "load_yaml"
  | SetupExp _ => "setup_exp"
  | SetRandomSeed _ => "set_random_seed"
  | SetFloat32MatmulPrecision _ => "set_float32_matmul_precision"
  | Print _ => "print"
  | GetAvailableDevices => "get_available_devices"
  | SentenceEncoder _ _ => "SentenceEncoder"
  | UnifiedTaskConstructor _ _ _ _ _ _ _ => "UnifiedTaskConstructor"
  | ConstructExp _ => "construct_exp"
  | FlushModel _ => "flush_model"
  | PyGRGCNEdge _ _ _ _ _ _ => "PyGRGCNEdge"
  | BinModel _ _ _ _ _ _ _ => "bin_model"
  | MakeTrainData _ _ _ _ => "make_train_data"
  | MakeFullDmList _ _ _ _ => "make_full_dm_list"
  | DataModule _ _ _ => "DataModule"
  | BCEWithLogitsLoss => "BCEWithLogitsLoss"
  | NewScorer sc => scorer_class sc
  | EvalKit _ => "EvalKit"
  | ModelParameters _ => "parameters"
  | Adam _ _ _ => "Adam"
  | StepLR _ _ => "StepLR"
  | ExpConfig _ _ _ _ => "ExpConfig"
  | SetStateName _ _ _ => "setattr"
  | GraphPredLightning _ _ _ => "GraphPredLightning"
  | LightningFit _ _ _ _ _ _ _ _ _ _ => "lightning_fit"
  | Interp _ _ => "interpreter"
  end.

Definition callee_of (e : entry) : string :=
  match e with Called c _ => callee c end.

(** The call came back with an answer. *)
Definition returned (e : entry) : bool :=
  match e with Called _ (inr _) => true | Called _ (inl _) => false end.

(** The calls that build a model or a dataset: the text encoder, the
    task constructor and the datasets it makes, the graph encoder, the
    head, and the data module. *)
Definition builds (e : entry) : bool :=
  bool_decide (callee_of e ∈
    ["SentenceEncoder"; "UnifiedTaskConstructor"; "construct_exp";
     "PyGRGCNEdge"; "bin_model"; "make_train_data"; "make_full_dm_list";
     "DataModule"]).

(** The dataset an entry of [make_full_dm_list] came back with. *)
Definition full_dm_list_of (e : entry) : option text_dataset :=
  match e with
  | Called c r =>
      match c in extE R return exn + R -> option text_dataset with
      | MakeFullDmList _ _ _ _ =>
          fun r => match r with inr td => Some td | inl _ => None end
      | _ => fun _ => None
      end r
  end.

(** The calls of [main] before the datasets are there. *)
Definition quiet (e : entry) : Prop :=
  callee_of e ∉ ["make_full_dm_list"; "DataModule"; "EvalKit";
                 "lightning_fit"].

(** An environment in which every call comes back: the files hold
    [cfg], [make_full_dm_list] gives [ds], two accelerators are found,
    and a new object is named by the number of calls so far. *)
Definition calm (cfg : dict) (ds : text_dataset) : env :=
  fun R hist c =>
    match c in extE R return exn + R with
    | LoadYaml _ => inr cfg
    | SetupExp d => inr d
    | SetRandomSeed _ | SetFloat32MatmulPrecision _ | Print _
    | FlushModel _ | SetStateName _ _ _ => inr ()
    | GetAvailableDevices => inr (length hist, [0; 1]%nat)
    | ConstructExp _ => inr (PyList [PyInt 0], PyStr "mean")
    | MakeFullDmList _ _ _ _ => inr ds
    | LightningFit _ _ _ _ _ _ _ _ _ _ =>
        inr (PyOpaque (length hist), PyOpaque (S (length hist)))
    | Interp _ _ => inr (PyOpaque (length hist))
    | _ => inr (length hist)
    end.

(** The calm environment, except that [Accuracy] refuses a class count
    below two with [ValueError], as the multiclass accuracy of
    torchmetrics does. *)
Definition strict (cfg : dict) (ds : text_dataset) : env :=
  fun R hist c =>
    match c in extE R return exn + R with
    | NewScorer (Accuracy _ num_classes) =>
        if decide (num_classes < 2) then inl ValueError
        else inr (length hist)
    | c => calm cfg ds _ hist c
    end.

Definition demo_cfg : dict :=
  list_to_map
    [("seed", PyInt 1); ("exp_name", PyStr "pretrain");
     ("llm_name", PyStr "ST"); ("llm_b_size", PyInt 32);
     ("task_names", PyStr "arxiv, cora_link"); ("load_texts", PyBool false);
     ("batch_size", PyInt 64); ("train_sample_size", PyInt (-1));
     ("emb_dim", PyInt 768); ("rwpe", PyInt 20); ("num_layers", PyInt 6);
     ("dropout", PyOpaque 0); ("JK", PyStr "none");
     ("d_multiple", PyStr "1,0.5"); ("num_workers", PyInt 4);
     ("lr", PyOpaque 1); ("l2", PyInt 0); ("num_epochs", PyInt 50);
     ("load_best", PyBool false); ("test_rep", PyInt 1);
     ("val_interval", PyInt 1)].

Definition demo_cli : cli := Cli None [("seed", PyInt 42)].

Definition names_of (tr : list entry) : list string := callee_of <$> tr.

(** [make_full_dm_list] came back with no validation split or no test
    split. *)
Definition starved (e : entry) : Prop :=
  match full_dm_list_of e with
  | Some td => td_val td = [] \/ td_test td = []
  | None => False
  end.

(** The run ended with an exception, without a call of [EvalKit] or of
    [lightning_fit]; the exception is [IndexError] if the data module was
    built and no call raised. *)
Definition ends_without_kit (tr : list entry) (o : exn + unit) : Prop :=
  Forall (fun e => callee_of e <> "EvalKit" /\ callee_of e <> "lightning_fit")
         tr
  /\ (exists ex, o = inl ex)
  /\ (Exists (fun e => callee_of e = "DataModule") tr ->
      Forall (fun e => returned e = true) tr ->
      o = inl IndexError).

(** What is shown of a run: if it has a starved entry, it ended without
    an evaluation kit. *)
Definition kit_goal (res : list entry * (exn + unit)) : Prop :=
  Exists starved res.1 -> ends_without_kit res.1 res.2.

Definition no_val : text_dataset :=
  TextDataset [] [Split "test_a" "auc" 2 2].

(** A dataset without validation split whose test split asks for an
    accuracy over one class. *)
Definition no_val_one_class : text_dataset :=
  TextDataset [] [Split "test_a" "acc" 1 2].

(** The scorer constructor call the table of the metric kit builder
    gives for a split: none for a kind outside the table. *)
Definition scorer_of (dt : split) : option scorer :=
  if decide (metric dt = "acc") then Some (Accuracy "multiclass" (classes dt))
  else if decide (metric dt = "auc") then Some (AUROC "binary")
  else if decide (metric dt = "apr") then Some (MultiApr (classes dt))
  else if decide (metric dt = "aucmulti") then Some (MultiAuc (classes dt))
  else None.

(** The scorer constructor call of an entry. *)
Definition scorer_call_of (e : entry) : option scorer :=
  match e with
  | Called c _ => match c with NewScorer sc => Some sc | _ => None end
  end.

(** The scorer object an entry came back with. *)
Definition scorer_made_by (e : entry) : option handle :=
  match e with
  | Called c r =>
      match c in extE R return exn + R -> option handle with
      | NewScorer _ =>
          fun r => match r with inr h => Some h | inl _ => None end
      | _ => fun _ => None
      end r
  end.

(** The arguments an entry of [EvalKit] was called with. *)
Definition kit_args_of (e : entry) : option eval_kit_args :=
  match e with
  | Called c _ => match c with EvalKit args => Some args | _ => None end
  end.

(** The piece a call [float(a)] was made on. *)
Definition float_arg_of (e : entry) : option string :=
  match e with
  | Called c _ =>
      match c with
      | Interp op [PyStr a] => if decide (op = "float") then Some a else None
      | _ => None
      end
  end.

(** [emits p ns]: the calls of [p], operations of the interpreter
    aside, go to the callees [ns] in this order; a run that ends with an
    exception stops somewhere on the way. *)
Inductive emits {A : Type} : Prog A -> list string -> Prop :=
| emits_Ret a : emits (Ret a) []
| emits_Raise e ns : emits (Raise e) ns
| emits_Call {R} (c : extE R) k ns :
    callee c <> "interpreter" -> (forall r, emits (k r) ns) ->
    emits (Call c k) (callee c :: ns)
| emits_Interp op args k ns :
    (forall r, emits (k r) ns) -> emits (Call (Interp op args) k) ns.

(** The callees of a trace, operations of the interpreter left out. *)
Definition visible (tr : list entry) : list string :=
  filter (fun n => n <> "interpreter") (names_of tr).

(** The scorer classes step 4 calls for the dataset [td]: one for each
    split of a known kind, validation splits first. *)
Definition scorer_calls (td : text_dataset) : list string :=
  scorer_class <$> omap scorer_of (td_val td ++ td_test td).

(** The calls of step 4 for the dataset [td], in order. *)
Definition eval_kit_calls (td : text_dataset) : list string :=
  "BCEWithLogitsLoss" :: scorer_calls td ++ ["EvalKit"].

(** The calls of [main] when [make_full_dm_list] gives [td], in order. *)
Definition main_calls (td : text_dataset) : list string :=
  ["get_available_devices"; "SentenceEncoder"; "load_yaml"; "load_yaml";
   "UnifiedTaskConstructor"; "construct_exp"; "flush_model"; "PyGRGCNEdge";
   "bin_model"; "make_train_data"; "make_full_dm_list"; "DataModule"]
  ++ eval_kit_calls td
  ++ ["parameters"; "Adam"; "StepLR"; "ExpConfig"; "setattr"; "setattr";
      "GraphPredLightning"; "lightning_fit"].

(** The calls up to [setup_exp], in order: the override file is read
    right after the default configuration when [--override] is given. *)
Definition load_calls (args : cli) : list string :=
  "load_yaml"
  :: match override args with Some _ => ["load_yaml"] | None => [] end
  ++ ["setup_exp"].

(** The calls from [set_random_seed] on when [make_full_dm_list] gives
    [td], in order. *)
Definition run_calls (td : text_dataset) : list string :=
  ["set_random_seed"; "set_float32_matmul_precision"; "print"]
  ++ main_calls td.

(** The calls of the script, in order. *)
Definition script_calls (args : cli) (td : text_dataset) : list string :=
  load_calls args ++ run_calls td.

(** The model, data module, evaluation kit and strategy a call of
    [lightning_fit] was given. *)
Definition fit_args_of (e : entry)
  : option (handle * pyval * handle * string) :=
  match e with
  | Called c _ =>
      match c with
      | LightningFit model datamodule metrics _ strategy _ _ _ _ _ =>
          Some (model, datamodule, metrics, strategy)
      | _ => None
      end
  end.

Definition no_fit (e : entry) : Prop := fit_args_of e = None.

(** A history without a call of [lightning_fit] in which the entries
    [facts] are found. *)
Definition knows (facts : list entry) (hist : list entry) : Prop :=
  Forall no_fit hist /\ Forall (fun e => e ∈ hist) facts.

(** The trace [tr] has the calls that made what [lightning_fit] was
    given: the devices were counted and the strategy is the one for
    their number; the data module was built for that number of devices
    and is the one passed on; the evaluation kit was built for the
    splits of the data module's datasets; and the lightning module was
    built around that kit. *)
Definition built_for_fit (tr : list entry) (model : handle)
  (datamodule : pyval) (metrics : handle) (strategy_name : string) : Prop :=
  exists device gpu_ids td num_workers dmh kargs exp_config net,
    Called GetAvailableDevices (inr (device, gpu_ids)) ∈ tr
    /\ strategy_name = strategy (length gpu_ids)
    /\ Called (DataModule td (length gpu_ids) num_workers) (inr dmh) ∈ tr
    /\ datamodule = PyOpaque dmh
    /\ Called (EvalKit kargs) (inr metrics) ∈ tr
    /\ ek_eval_state kargs
       = (state_name <$> td_val td) ++ (state_name <$> td_test td)
    /\ Called (GraphPredLightning exp_config net metrics) (inr model) ∈ tr.

Definition fit_goal (res : list entry * (exn + unit)) : Prop :=
  forall e model datamodule metrics strategy_name,
    e ∈ res.1 ->
    fit_args_of e = Some (model, datamodule, metrics, strategy_name) ->
    built_for_fit res.1 model datamodule metrics strategy_name.





(** * Properties *)

Example split_example :
  Str.split "," "arxiv, cora_node ,,x" = ["arxiv"; " cora_node "; ""; "x"].
Proof. reflexivity. Qed.

Example strip_example : Str.strip "  cora node
 " = "cora node".
Proof. reflexivity. Qed.

(** ** Splitting and stripping *)

Section str_facts.
Variable c : ascii.

Lemma split_nonempty s : Str.split c s ≠ [].
Proof.
  destruct s as [|a s]; simpl; [done|].
  case_bool_decide; [done|]. by destruct (Str.split c s).
Qed.




(** One piece more than there are separators. *)
Lemma length_split s : length (Str.split c s) = S (Str.count c s).
Proof.
  induction s as [|a s IH]; simpl; [done|].
  case_bool_decide as Hac; simpl; [by rewrite IH|].
  pose proof (split_nonempty s) as Hne.
  destruct (Str.split c s) as [|p ps]; [done|]. by simpl in *.
Qed.
End str_facts.





(** ** Runs of the script *)

Lemma run_bind {A B : Type} (w : env) (m : Prog A) (f : A -> Prog B) hist :
  run w hist (m ≫= f) =
  match run w hist m with
  | (hist', inr a) => run w hist' (f a)
  | (hist', inl e) => (hist', inl e)
  end.
Proof.
  revert hist. induction m as [a|e|R c k IH]; intros hist; try done.
  change (Call c k ≫= f) with (Call c (fun r => k r ≫= f)). simpl.
  destruct (w R hist c) as [e|r]; [done|]. apply IH.
Qed.

Lemma run_fmap {A B : Type} (w : env) (m : Prog A) (f : A -> B) hist :
  run w hist (f <$> m) =
  match run w hist m with
  | (hist', inr a) => (hist', inr (f a))
  | (hist', inl e) => (hist', inl e)
  end.
Proof.
  change (f <$> m) with (m ≫= fun a => Ret (f a)). rewrite run_bind.
  by destruct (run w hist m) as [? [?|?]].
Qed.

Lemma run_getattr (w : env) params name hist :
  run w hist (getattr params name) =
  (hist, match params !! name with
         | Some v => inr v
         | None => inl (AttributeError name)
         end).
Proof. unfold getattr. by destruct (params !! name). Qed.

Lemma run_call {R : Type} (w : env) (c : extE R) hist :
  run w hist (call c) =
  match w R hist c with
  | inl e => (hist ++ [Called c (inl e)], inl e)
  | inr r => (hist ++ [Called c (inr r)], inr r)
  end.
Proof. simpl. by destruct (w R hist c). Qed.

Lemma run_bind_assoc {A B C : Type} (w : env) (m : Prog A)
  (f : A -> Prog B) (g : B -> Prog C) hist :
  run w hist ((m ≫= f) ≫= g) = run w hist (m ≫= fun a => f a ≫= g).
Proof.
  rewrite !run_bind. destruct (run w hist m) as [h [e|a]]; [done|].
  by rewrite run_bind.
Qed.

Lemma run_ret_bind {A B : Type} (w : env) (a : A) (f : A -> Prog B) hist :
  run w hist (Ret a ≫= f) = run w hist (f a).
Proof. reflexivity. Qed.

Lemma run_raise_bind {A B : Type} (w : env) e (f : A -> Prog B) hist :
  run w hist (Raise e ≫= f) = (hist, inl e).
Proof. reflexivity. Qed.

(** A run only ever adds to the history. *)
Lemma run_extends {A : Type} (w : env) (p : Prog A) hist :
  exists post, (run w hist p).1 = hist ++ post.
Proof.
  revert hist. induction p as [a|e|R c k IH]; intros hist; simpl.
  - exists []. by rewrite app_nil_r.
  - exists []. by rewrite app_nil_r.
  - destruct (w R hist c) as [e|r]; simpl; [by eexists|].
    destruct (IH r (hist ++ [Called c (inr r)])) as [post ->].
    eexists. by rewrite <-app_assoc.
Qed.

Lemma only_bind (P : entry -> Prop) {A B : Type} (m : Prog A)
  (f : A -> Prog B) :
  only P m -> (forall a, only P (f a)) -> only P (m ≫= f).
Proof.
  intros Hm Hf. induction Hm as [a|e|R c k Hc Hk IH].
  - exact (Hf a).
  - exact (only_Raise P e).
  - change (Call c k ≫= f) with (Call c (fun r => k r ≫= f)).
    by constructor.
Qed.

Lemma only_fmap (P : entry -> Prop) {A B : Type} (m : Prog A) (f : A -> B) :
  only P m -> only P (f <$> m).
Proof. intros Hm. apply (only_bind P m); [done|]. constructor. Qed.

Lemma only_call (P : entry -> Prop) {R : Type} (c : extE R) :
  (forall r, P (Called c r)) -> only P (call c).
Proof. intros Hc. constructor; [done|]. constructor. Qed.

Lemma only_getattr (P : entry -> Prop) params name :
  only P (getattr params name).
Proof. unfold getattr. destruct (params !! name); constructor. Qed.

Lemma only_index0 (P : entry -> Prop) {A : Type} (l : list A) :
  only P (index0 l).
Proof. destruct l; constructor. Qed.

Lemma only_for_each (P : entry -> Prop) {A B : Type} (f : A -> Prog B) l :
  (forall a, only P (f a)) -> only P (for_each f l).
Proof.
  intros Hf. induction l as [|a l IH]; simpl; [constructor|].
  apply only_bind; [done|]. intros b.
  apply only_bind; [done|]. constructor.
Qed.

Lemma only_for_loop (P : entry -> Prop) {A S : Type}
  (body : S -> A -> Prog S) s l :
  (forall s a, only P (body s a)) -> only P (for_loop body s l).
Proof.
  intros Hb. revert s. induction l as [|a l IH]; intros s; simpl;
    [constructor|].
  apply only_bind; [done|]. intros s'. apply IH.
Qed.

Lemma only_run (P : entry -> Prop) {A : Type} (p : Prog A) (w : env) hist :
  only P p -> exists post, (run w hist p).1 = hist ++ post /\ Forall P post.
Proof.
  intros Hp. revert hist.
  induction Hp as [a|e|R c k Hc Hk IH]; intros hist; simpl.
  - exists []. by rewrite app_nil_r.
  - exists []. by rewrite app_nil_r.
  - destruct (w R hist c) as [e|r]; simpl.
    + eexists. split; [done|]. by repeat constructor.
    + destruct (IH r (hist ++ [Called c (inr r)])) as (post & -> & Hpost).
      eexists. rewrite <-app_assoc. split; [done|]. by constructor.
Qed.

(** In the calm environment the run goes through to the training
    driver. *)
Example calm_run :
  names_of (trace (calm demo_cfg odd_kind) (script demo_cli)) =
  ["load_yaml"; "setup_exp"; "set_random_seed";
   "set_float32_matmul_precision"; "print"; "get_available_devices";
   "SentenceEncoder"; "load_yaml"; "load_yaml"; "UnifiedTaskConstructor";
   "construct_exp"; "flush_model"; "PyGRGCNEdge"; "bin_model"; "interpreter";
   "interpreter"; "make_train_data"; "make_full_dm_list"; "DataModule";
   "BCEWithLogitsLoss"; "Accuracy"; "AUROC";
   "EvalKit"; "parameters"; "Adam"; "StepLR"; "ExpConfig"; "setattr";
   "setattr"; "GraphPredLightning"; "lightning_fit"]
  /\ outcome (calm demo_cfg odd_kind) (script demo_cli) = inr ().
Proof. split; vm_compute; reflexivity. Qed.

Ltac only_step :=
  lazymatch goal with
  | |- only _ (_ ≫= _) => apply only_bind; [|intros]
  | |- only _ (_ <$> _) => apply only_fmap
  | |- only _ (call _) => apply only_call; intros
  | |- only _ (getattr _ _) => apply only_getattr
  | |- only _ (index0 _) => apply only_index0
  | |- only _ (Ret _) => constructor
  | |- only _ (Raise _) => constructor
  | |- only _ (match ?x with _ => _ end) => destruct x
  end.

Section interp_allowed.
Variable P : entry -> Prop.
Hypothesis interp_P : forall op args r, P (Called (Interp op args) r).

Lemma only_py_add a b : only P (py_add a b).
Proof. unfold py_add. repeat only_step; apply interp_P. Qed.

Lemma only_py_iadd_str a s : only P (py_iadd_str a s).
Proof. unfold py_iadd_str. repeat only_step; apply interp_P. Qed.

Lemma only_format_value v : only P (format_value v).
Proof. unfold format_value. repeat only_step; apply interp_P. Qed.

Lemma only_float_list params name : only P (float_list params name).
Proof.
  unfold float_list. destruct (hasattr params name); [|constructor].
  repeat only_step. apply only_for_each. intros a.
  apply only_call, interp_P.
Qed.

Lemma only_out_dim params : only P (out_dim params).
Proof. unfold out_dim. repeat only_step. apply only_py_add. Qed.
End interp_allowed.

(** ** The metric kit builder *)

Lemma known_metric_cases m :
  known_metric m = true <->
  m = "acc" \/ m = "auc" \/ m = "apr" \/ m = "aucmulti".
Proof.
  unfold known_metric. rewrite bool_decide_eq_true.
  rewrite !elem_of_cons, elem_of_nil. tauto.
Qed.

Lemma scorer_of_unknown dt :
  known_metric (metric dt) = false -> scorer_of dt = None.
Proof.
  intros Hk. unfold scorer_of.
  repeat case_decide; try done;
    apply not_true_iff_false in Hk; destruct Hk;
    apply known_metric_cases; auto.
Qed.

Lemma scorer_of_known dt :
  known_metric (metric dt) = true -> exists sc, scorer_of dt = Some sc.
Proof.
  intros Hk. apply known_metric_cases in Hk. unfold scorer_of.
  repeat case_decide; eauto. by destruct Hk as [?|[?|[?|?]]].
Qed.

(** A round of the loop calls the constructor of the table and appends
    what it returns; for a kind outside the table it does nothing. *)
Lemma add_scorer_table evlter dt :
  add_scorer evlter dt =
  match scorer_of dt with
  | Some sc => call (NewScorer sc) ≫= fun h => Ret (evlter ++ [h])
  | None => Ret evlter
  end.
Proof. unfold add_scorer, scorer_of. by repeat case_decide. Qed.

Lemma add_scorer_unknown evlter dt :
  known_metric (metric dt) = false -> add_scorer evlter dt = Ret evlter.
Proof. intros Hk. by rewrite add_scorer_table, scorer_of_unknown. Qed.

Lemma omap_scorer_of_cons dt eval_data :
  omap scorer_of (dt :: eval_data) =
  match scorer_of dt with
  | Some sc => sc :: omap scorer_of eval_data
  | None => omap scorer_of eval_data
  end.
Proof. reflexivity. Qed.

Lemma omap_scorer_of_known eval_data :
  Forall (fun dt => known_metric (metric dt) = true) eval_data ->
  length (omap scorer_of eval_data) = length eval_data.
Proof.
  induction 1 as [|dt l Hk _ IH]; [done|]. rewrite omap_scorer_of_cons.
  destruct (scorer_of_known dt Hk) as [sc ->]. simpl. by rewrite IH.
Qed.

Lemma omap_scorer_of_le eval_data :
  (length (omap scorer_of eval_data) <= length eval_data)%nat.
Proof.
  induction eval_data as [|dt l IH]; [done|]. rewrite omap_scorer_of_cons.
  destruct (scorer_of dt); simpl; lia.
Qed.

Lemma omap_scorer_of_unknown eval_data :
  Exists (fun dt => known_metric (metric dt) = false) eval_data ->
  (length (omap scorer_of eval_data) < length eval_data)%nat.
Proof.
  induction 1 as [dt l Hk|dt l _ IH]; rewrite omap_scorer_of_cons.
  - rewrite (scorer_of_unknown dt Hk).
    pose proof (omap_scorer_of_le l). simpl. lia.
  - destruct (scorer_of dt); simpl; lia.
Qed.

(** The scorer loop, whatever the environment answers: it calls scorer
    constructors only, those of the table for the splits of a known
    kind, from left to right; when it returns, every call came back and
    the list is extended by the objects made, in the order of the calls;
    when it does not, a call raised. *)
Lemma run_scorer_loop (w : env) (eval_data : list split) evlter hist :
  exists post,
    (run w hist (for_loop add_scorer evlter eval_data)).1 = hist ++ post
    /\ scorer_call_of <$> post
       = Some <$> take (length post) (omap scorer_of eval_data)
    /\ (length post <= length (omap scorer_of eval_data))%nat
    /\ (forall scorers,
          (run w hist (for_loop add_scorer evlter eval_data)).2 = inr scorers ->
          scorers = evlter ++ omap scorer_made_by post
          /\ length scorers
             = (length evlter + length (omap scorer_of eval_data))%nat
          /\ length post = length (omap scorer_of eval_data)
          /\ Forall (fun e => returned e = true) post)
    /\ (forall ex,
          (run w hist (for_loop add_scorer evlter eval_data)).2 = inl ex ->
          Exists (fun e => returned e = false) post).
Proof.
  revert evlter hist. induction eval_data as [|dt l IH]; intros evlter hist.
  - exists []. simpl. rewrite !app_nil_r. split_and!; try done.
    intros scorers [= <-]. split_and!; first [done|lia].
  - change (for_loop add_scorer evlter (dt :: l))
      with (add_scorer evlter dt ≫= fun s => for_loop add_scorer s l).
    rewrite add_scorer_table, omap_scorer_of_cons.
    destruct (scorer_of dt) as [sc|].
    + rewrite run_bind_assoc, run_bind, run_call.
      destruct (w _ hist (NewScorer sc)) as [ex|h].
      * exists [Called (NewScorer sc) (inl ex)]. simpl.
        split_and!; try done; [lia|]. intros _ _. by repeat constructor.
      * cbv beta iota. rewrite run_ret_bind.
        destruct (IH (evlter ++ [h]) (hist ++ [Called (NewScorer sc) (inr h)]))
          as (post & Hrun & Hcalls & Hlen & Hok & Hfail).
        exists (Called (NewScorer sc) (inr h) :: post).
        rewrite Hrun, <-app_assoc. simpl. split_and!.
        -- done.
        -- f_equal. exact Hcalls.
        -- lia.
        -- intros scorers Hs. destruct (Hok scorers Hs) as (-> & Hl & Hp & Hr).
           rewrite <-app_assoc. split_and!; [done| | |by constructor].
           ++ rewrite !length_app in Hl |- *. simpl in *. lia.
           ++ by rewrite Hp.
        -- intros ex Hex. apply Exists_cons_tl. by apply (Hfail ex).
    + rewrite run_ret_bind. apply IH.
Qed.

Lemma scorer_call_no_kit e :
  is_Some (scorer_call_of e) ->
  kit_args_of e = None /\ callee_of e <> "EvalKit"
  /\ callee_of e <> "lightning_fit".
Proof.
  destruct e as [R c r]. destruct c; try (by intros [? [=]]).
  intros _. by destruct sc.
Qed.

Lemma all_scorer_calls post (l : list scorer) :
  scorer_call_of <$> post = Some <$> l ->
  Forall (fun e => is_Some (scorer_call_of e)) post.
Proof.
  revert l. induction post as [|e post IH]; intros [|sc l]; try done.
  intros [= He Hpost]. constructor; [by eexists|]. by eapply IH.
Qed.

(** Step 4, whatever the environment answers: an [EvalKit] call is made
    only after the loss and every scorer were made, with both lists of
    splits non-empty, and its arguments are those for the first state
    names and for the scorer list the loop returned. *)
Lemma init_eval_kit_run (w : env) (td : text_dataset) hist :
  exists post,
    (run w hist (init_eval_kit td)).1 = hist ++ post
    /\ forall e args,
         e ∈ post -> kit_args_of e = Some args ->
         exists loss evlter v t hist0 hist1,
           head (td_val td) = Some v /\ head (td_test td) = Some t
           /\ args = eval_kit_for td loss evlter (state_name v) (state_name t)
           /\ run w hist0 (build_evlter (td_val td ++ td_test td))
              = (hist1, inr evlter).
Proof.
  unfold init_eval_kit, make_scorers.
  rewrite run_bind_assoc, run_bind, run_call.
  destruct (w _ hist BCEWithLogitsLoss) as [ex|loss].
  { eexists. split; [reflexivity|]. intros e args He.
    apply list_elem_of_singleton in He as ->. done. }
  cbv beta iota. rewrite run_bind_assoc, run_bind. unfold build_evlter.
  destruct (run_scorer_loop w (td_val td ++ td_test td) []
              (hist ++ [Called BCEWithLogitsLoss (inr loss)]))
    as (post & Hrun & Hcalls & _ & _ & _).
  apply all_scorer_calls in Hcalls.
  assert (forall e args,
    e ∈ Called BCEWithLogitsLoss (inr loss) :: post ->
    kit_args_of e = Some args -> False) as Hnone.
  { intros e args [->|He]%elem_of_cons; [done|].
    rewrite Forall_forall in Hcalls.
    destruct (scorer_call_no_kit e (Hcalls e He)) as [-> _]. done. }
  destruct (run w _ (for_loop add_scorer [] _)) as [h [ex|evlter]] eqn:Hloop;
    simpl in Hrun; subst h.
  { exists (Called BCEWithLogitsLoss (inr loss) :: post).
    rewrite <-app_assoc. split; [done|].
    intros e args He Hk. destruct (Hnone e args He Hk). }
  cbv beta iota.
  destruct td as [[|v vs] [|t ts]];
    try (exists (Called BCEWithLogitsLoss (inr loss) :: post);
         rewrite <-app_assoc; split; [done|];
         intros e args He Hk; destruct (Hnone e args He Hk)).
  set (a := eval_kit_for (TextDataset (v :: vs) (t :: ts)) loss evlter
              (state_name v) (state_name t)).
  set (h := (hist ++ [Called BCEWithLogitsLoss (inr loss)]) ++ post).
  exists (Called BCEWithLogitsLoss (inr loss) :: post
          ++ [Called (EvalKit a) (w handle h (EvalKit a))]).
  split.
  { change (run w h _) with (run w h (call (EvalKit a))).
    rewrite run_call. unfold h.
    destruct (w handle _ (EvalKit a)); simpl;
      repeat (rewrite <-app_assoc; simpl); reflexivity. }
  intros e args He Hk.
  rewrite app_comm_cons in He. apply elem_of_app in He as [He|He].
  { destruct (Hnone e args He Hk). }
  apply list_elem_of_singleton in He. subst e. injection Hk as <-.
  eexists loss, evlter, v, t, _, _. split_and!; first [done|exact Hloop].
Qed.

(** C1, amended. For a split whose metric kind is one of the four known
    ones, a round of the loop calls exactly one scorer constructor, the
    one of the table (multiclass accuracy with the split's class count
    for "acc", binary AUROC for "auc", multi-label average precision
    with the split's class count for "apr", multi-label AUROC with the
    split's class count for "aucmulti"), and appends the scorer when the
    constructor returns; when it raises, the round ends with that
    exception and nothing is appended.  When every split has a known
    kind, the loop calls the constructors of the splits from left to
    right, and a loop that returns gives one scorer for each split, in
    order; a loop that does not return ended at a constructor that
    raised. *)
Theorem metric_kit_known_kinds (w : env) (hist : list entry)
  (evlter : list handle) (dt : split) (eval_data : list split) :
  (known_metric (metric dt) = true ->
     (metric dt = "acc" ->
        add_scorer evlter dt
        = call (NewScorer (Accuracy "multiclass" (classes dt)))
            ≫= fun h => Ret (evlter ++ [h]))
     /\ (metric dt = "auc" ->
           add_scorer evlter dt
           = call (NewScorer (AUROC "binary")) ≫= fun h => Ret (evlter ++ [h]))
     /\ (metric dt = "apr" ->
           add_scorer evlter dt
           = call (NewScorer (MultiApr (classes dt)))
               ≫= fun h => Ret (evlter ++ [h]))
     /\ (metric dt = "aucmulti" ->
           add_scorer evlter dt
           = call (NewScorer (MultiAuc (classes dt)))
               ≫= fun h => Ret (evlter ++ [h]))
     /\ exists sc,
          scorer_of dt = Some sc
          /\ run w hist (add_scorer evlter dt)
             = match w _ hist (NewScorer sc) with
               | inr h => (hist ++ [Called (NewScorer sc) (inr h)],
                           inr (evlter ++ [h]))
               | inl ex => (hist ++ [Called (NewScorer sc) (inl ex)], inl ex)
               end)
  /\ (Forall (fun dt => known_metric (metric dt) = true) eval_data ->
      exists post,
        (run w hist (build_evlter eval_data)).1 = hist ++ post
        /\ scorer_call_of <$> post
           = Some <$> take (length post) (omap scorer_of eval_data)
        /\ (forall scorers,
              (run w hist (build_evlter eval_data)).2 = inr scorers ->
              length scorers = length eval_data
              /\ length post = length eval_data
              /\ scorers = omap scorer_made_by post)
        /\ (forall ex,
              (run w hist (build_evlter eval_data)).2 = inl ex ->
              Exists (fun e => returned e = false) post)).
Proof.
  split.
  - intros Hk. split_and!.
    + intros Hm. unfold add_scorer. by rewrite decide_True.
    + intros Hm. unfold add_scorer. by rewrite Hm.
    + intros Hm. unfold add_scorer. by rewrite Hm.
    + intros Hm. unfold add_scorer. by rewrite Hm.
    + destruct (scorer_of_known dt Hk) as [sc Hsc]. exists sc.
      split; [done|]. rewrite add_scorer_table, Hsc, run_bind, run_call.
      by destruct (w _ hist (NewScorer sc)).
  - intros Hall. unfold build_evlter.
    destruct (run_scorer_loop w eval_data [] hist)
      as (post & Hrun & Hcalls & _ & Hok & Hfail).
    exists post. split_and!; try done.
    intros scorers Hs. destruct (Hok scorers Hs) as (-> & Hl & Hp & _).
    rewrite omap_scorer_of_known in Hl, Hp by done. by split_and!.
Qed.

Lemma metric_kit_known_kinds_witness :
  add_scorer [7%nat] (Split "test_a" "apr" 12 2)
  = call (NewScorer (MultiApr 12)) ≫= (fun h => Ret ([7%nat] ++ [h]))
  /\ exists post,
       (run (calm demo_cfg odd_kind) [] (build_evlter four_kinds)).1
         = [] ++ post
       /\ scorer_call_of <$> post
          = Some <$> take (length post) (omap scorer_of four_kinds)
       /\ (forall scorers,
             (run (calm demo_cfg odd_kind) [] (build_evlter four_kinds)).2
               = inr scorers ->
             length scorers = length four_kinds
             /\ length post = length four_kinds
             /\ scorers = omap scorer_made_by post)
       /\ (forall ex,
             (run (calm demo_cfg odd_kind) [] (build_evlter four_kinds)).2
               = inl ex ->
             Exists (fun e => returned e = false) post).
Proof.
  assert (Forall (fun dt => known_metric (metric dt) = true) four_kinds)
    as Hall by (repeat constructor).
  split.
  - refine (proj1 (proj2 (proj2 (proj1
              (metric_kit_known_kinds (calm demo_cfg odd_kind) [] [7%nat]
                 (Split "test_a" "apr" 12 2) four_kinds) _))) _);
      reflexivity.
  - exact (proj2 (metric_kit_known_kinds (calm demo_cfg odd_kind) [] []
                    (Split "test_a" "apr" 12 2) four_kinds) Hall).
Defined.

Example four_kinds_run :
  run (calm demo_cfg odd_kind) [] (build_evlter four_kinds)
  = ([Called (NewScorer (Accuracy "multiclass" 40)) (inr 0%nat);
      Called (NewScorer (AUROC "binary")) (inr 1%nat);
      Called (NewScorer (MultiApr 12)) (inr 2%nat);
      Called (NewScorer (MultiAuc 7)) (inr 3%nat)],
     inr [0; 1; 2; 3]%nat).
Proof. reflexivity. Qed.

(** The claim C1 as it is worded fails where a constructor refuses its
    arguments: for an "acc" split over one class, in an environment in
    which [Accuracy] raises [ValueError] for fewer than two classes, the
    round ends with the exception and appends no scorer, and the loop
    over this one split returns no list. *)
Lemma scorer_not_always_appended :
  known_metric (metric (Split "val_a" "acc" 1 0)) = true
  /\ run (strict demo_cfg odd_kind) [] (add_scorer [] (Split "val_a" "acc" 1 0))
     = ([Called (NewScorer (Accuracy "multiclass" 1)) (inl ValueError)],
        inl ValueError)
  /\ ~ (exists scorers,
          (run (strict demo_cfg odd_kind) []
               (build_evlter [Split "val_a" "acc" 1 0])).2 = inr scorers
          /\ length scorers = length [Split "val_a" "acc" 1 0]).
Proof.
  split_and!; [reflexivity|reflexivity|]. by intros (scorers & [=] & _).
Qed.

(** C2. For a split whose metric kind is none of the four, a round of
    the loop makes no call, raises nothing and leaves the scorer list as
    it is; so a scorer list the loop returns for splits among which one
    has an unknown kind is shorter than the list of splits, and every
    [EvalKit] call made for such a dataset receives fewer scorers than
    metric kinds. *)
Theorem metric_kit_unknown_kind (w : env) (hist : list entry)
  (text_dataset : text_dataset) :
  (forall evlter dt, known_metric (metric dt) = false ->
     add_scorer evlter dt = Ret evlter)
  /\ (forall eval_data scorers,
        Exists (fun dt => known_metric (metric dt) = false) eval_data ->
        (run w hist (build_evlter eval_data)).2 = inr scorers ->
        (length scorers < length eval_data)%nat)
  /\ (Exists (fun dt => known_metric (metric dt) = false)
             (td_val text_dataset ++ td_test text_dataset) ->
      exists post,
        (run w hist (init_eval_kit text_dataset)).1 = hist ++ post
        /\ forall e args,
             e ∈ post -> kit_args_of e = Some args ->
             (length (ek_evlter args) < length (ek_eval_metric args))%nat
             /\ length (ek_eval_metric args)
                = length (td_val text_dataset ++ td_test text_dataset)).
Proof.
  assert (forall w' hist' eval_data scorers,
    Exists (fun dt => known_metric (metric dt) = false) eval_data ->
    (run w' hist' (build_evlter eval_data)).2 = inr scorers ->
    (length scorers < length eval_data)%nat) as Hshort.
  { intros w' hist' eval_data scorers Hex Hs. unfold build_evlter in Hs.
    destruct (run_scorer_loop w' eval_data [] hist')
      as (post & _ & _ & _ & Hok & _).
    destruct (Hok scorers Hs) as (_ & -> & _). simpl.
    by apply omap_scorer_of_unknown. }
  split_and!; [apply add_scorer_unknown|apply Hshort|].
  intros Hex. destruct (init_eval_kit_run w text_dataset hist)
    as (post & Hrun & Hkit).
  exists post. split; [done|]. intros e args He Hk.
  destruct (Hkit e args He Hk)
    as (loss & evlter & v & t & h0 & h1 & _ & _ & -> & Hloop).
  unfold eval_kit_for. cbn [ek_evlter ek_eval_metric].
  rewrite length_fmap. split; [|done].
  apply (Hshort w h0); [done|]. by rewrite Hloop.
Qed.

Lemma metric_kit_unknown_kind_witness :
  add_scorer [7%nat] (Split "val_b" "f1" 3 1) = Ret [7%nat]
  /\ exists post,
       (run (calm demo_cfg odd_kind) [] (init_eval_kit odd_kind)).1
         = [] ++ post
       /\ forall e args,
            e ∈ post -> kit_args_of e = Some args ->
            (length (ek_evlter args) < length (ek_eval_metric args))%nat
            /\ length (ek_eval_metric args)
               = length (td_val odd_kind ++ td_test odd_kind).
Proof.
  destruct (metric_kit_unknown_kind (calm demo_cfg odd_kind) [] odd_kind)
    as (Hone & _ & Hkit).
  split.
  - apply Hone. reflexivity.
  - apply Hkit. apply Exists_cons_tl, Exists_cons_hd. reflexivity.
Defined.

(** In the calm environment the kit for [odd_kind] is built, with two
    scorers for three splits. *)
Example odd_kind_kit :
  run (calm demo_cfg odd_kind) [] (init_eval_kit odd_kind)
  = ([Called BCEWithLogitsLoss (inr 0%nat);
      Called (NewScorer (Accuracy "multiclass" 40)) (inr 1%nat);
      Called (NewScorer (AUROC "binary")) (inr 2%nat);
      Called (EvalKit (eval_kit_for odd_kind 0 [1; 2]%nat "val_a" "test_a"))
        (inr 3%nat)],
     inr 3%nat).
Proof. reflexivity. Qed.
(** ** The model assembler *)






(** ** The monitor names of the evaluation kit *)

(** C5. With a first validation split and a first test split, step 4
    makes the loss and the scorers and then calls [EvalKit] with the
    state name of the first validation split as [val_monitor_state] and
    the state name of the first test split as [test_monitor_state]: in
    every run, an [EvalKit] call that is made has these monitor names. *)
Theorem monitors_are_first_splits (w : env) (hist : list entry)
  (text_dataset : text_dataset) (v t : split) :
  head (td_val text_dataset) = Some v ->
  head (td_test text_dataset) = Some t ->
  init_eval_kit text_dataset
  = make_scorers (td_val text_dataset ++ td_test text_dataset)
      ≫= (fun '(loss, evlter) =>
            call (EvalKit (eval_kit_for text_dataset loss evlter
                             (state_name v) (state_name t))))
  /\ exists post,
       (run w hist (init_eval_kit text_dataset)).1 = hist ++ post
       /\ forall e args,
            e ∈ post -> kit_args_of e = Some args ->
            ek_val_monitor_state args = state_name v
            /\ ek_test_monitor_state args = state_name t
            /\ head (ek_eval_state args) = Some (state_name v).
Proof.
  intros Hv Ht. split.
  - destruct text_dataset as [[|v' vs] [|t' ts]]; try done.
    injection Hv as ->. injection Ht as ->. reflexivity.
  - destruct (init_eval_kit_run w text_dataset hist) as (post & Hrun & Hkit).
    exists post. split; [done|]. intros e args He Hk.
    destruct (Hkit e args He Hk)
      as (loss & evlter & v' & t' & h0 & h1 & Hv' & Ht' & -> & _).
    rewrite Hv in Hv'. rewrite Ht in Ht'.
    injection Hv' as <-. injection Ht' as <-.
    split_and!; [done|done|].
    destruct text_dataset as [[|v' vs] ts]; [done|].
    by injection Hv as ->.
Qed.

Lemma monitors_are_first_splits_witness :
  init_eval_kit odd_kind
  = make_scorers (td_val odd_kind ++ td_test odd_kind)
      ≫= (fun '(loss, evlter) =>
            call (EvalKit (eval_kit_for odd_kind loss evlter
                             "val_a" "test_a")))
  /\ exists post,
       (run (calm demo_cfg odd_kind) [] (init_eval_kit odd_kind)).1
         = [] ++ post
       /\ forall e args,
            e ∈ post -> kit_args_of e = Some args ->
            ek_val_monitor_state args = "val_a"
            /\ ek_test_monitor_state args = "test_a"
            /\ head (ek_eval_state args) = Some "val_a".
Proof.
  apply (monitors_are_first_splits (calm demo_cfg odd_kind) [] odd_kind
           (Split "val_a" "acc" 40 0) (Split "test_a" "auc" 2 2));
    reflexivity.
Defined.

(** ** The distributed strategy *)

(** C6. The strategy is "deepspeed_stage_2" exactly when there is more
    than one accelerator, and "auto" exactly when there is at most one. *)
Theorem strategy_by_gpu_count (gpu_size : nat) :
  (strategy gpu_size = "deepspeed_stage_2" <-> (1 < gpu_size)%nat)
  /\ (strategy gpu_size = "auto" <-> (gpu_size <= 1)%nat).
Proof.
  unfold strategy. destruct (Nat.ltb_spec 1 gpu_size); split; split;
    first [done | lia | discriminate].
Qed.

Lemma strategy_by_gpu_count_witness :
  strategy 4 = "deepspeed_stage_2" /\ strategy 1 = "auto"
  /\ strategy 0 = "auto".
Proof.
  split_and!.
  - apply (strategy_by_gpu_count 4). lia.
  - apply (strategy_by_gpu_count 1). lia.
  - apply (strategy_by_gpu_count 0). lia.
Defined.

(** ** Merging the configuration sources *)

Lemma combine_dict_one (base : dict) : combine_dict [base] = base.
Proof. unfold combine_dict. simpl. apply map_union_empty. Qed.

Lemma combine_dict_two (base oc : dict) : combine_dict [base; oc] = oc ∪ base.
Proof. unfold combine_dict. simpl. by rewrite map_union_empty. Qed.

Lemma merge_mod_app (d : dict) (pre post : list (string * pyval)) :
  merge_mod d (pre ++ post) = merge_mod (merge_mod d pre) post.
Proof. apply foldl_app. Qed.

(** A key no override names keeps its value. *)
Lemma merge_mod_other (d : dict) (opts : list (string * pyval)) (k : string) :
  k ∉ opts.*1 -> merge_mod d opts !! k = d !! k.
Proof.
  revert d. induction opts as [|[k' v'] opts IH]; intros d Hk; [done|].
  simpl in *. apply not_elem_of_cons in Hk as [Hne Hk].
  unfold merge_mod in *. simpl. rewrite IH by done.
  by rewrite lookup_insert_ne.
Qed.

(** The last override of a key decides its value. *)
Lemma merge_mod_last (d : dict) (pre post : list (string * pyval))
  (k : string) (v : pyval) :
  k ∉ post.*1 -> merge_mod d (pre ++ (k, v) :: post) !! k = Some v.
Proof.
  intros Hk. rewrite merge_mod_app.
  change (merge_mod (<[k := v]> (merge_mod d pre)) post !! k = Some v).
  rewrite merge_mod_other by done. apply lookup_insert_eq.
Qed.

(** C7. Key by key, the later source wins: the last command-line
    override of a key gives its value; a key without an override takes
    the value of the override file when that file has it; otherwise the
    key is as in the base file, so a key of one source only keeps the
    value it has there.  ([combine_dict] and [merge_mod] are modelled
    from the spec.) *)
Theorem merge_last_write_wins (base : dict) (override_config : option dict)
  (opts : list (string * pyval)) (k : string) :
  (forall pre v post,
     opts = pre ++ (k, v) :: post -> k ∉ post.*1 ->
     merged_params base override_config opts !! k = Some v)
  /\ (forall oc v,
        k ∉ opts.*1 -> override_config = Some oc -> oc !! k = Some v ->
        merged_params base override_config opts !! k = Some v)
  /\ (k ∉ opts.*1 ->
      (forall oc, override_config = Some oc -> oc !! k = None) ->
      merged_params base override_config opts !! k = base !! k).
Proof.
  unfold merged_params. split_and!.
  - intros pre v post -> Hk. by apply merge_mod_last.
  - intros oc v Hk -> Hoc. rewrite merge_mod_other by done.
    simpl. rewrite combine_dict_two. by apply lookup_union_Some_l.
  - intros Hk Hoc. rewrite merge_mod_other by done.
    destruct override_config as [oc|]; simpl.
    + rewrite combine_dict_two. apply lookup_union_r. by apply Hoc.
    + by rewrite combine_dict_one.
Qed.

Lemma merge_last_write_wins_witness :
  merged_params base_cfg (Some override_cfg) cli_opts !! "seed"
    = Some (PyInt 42)
  /\ merged_params base_cfg (Some override_cfg) cli_opts !! "lr"
       = Some (PyStr "0.001")
  /\ merged_params base_cfg (Some override_cfg) cli_opts !! "JK"
       = Some (PyStr "none")
  /\ merged_params base_cfg None cli_opts !! "lr" = Some (PyStr "0.0001").
Proof.
  split_and!.
  - refine (proj1 (merge_last_write_wins base_cfg (Some override_cfg)
                     cli_opts "seed")
              [("seed", PyInt 3); ("rwpe", PyInt 20)] (PyInt 42) [] _ _);
      [reflexivity|apply not_elem_of_nil].
  - refine (proj1 (proj2 (merge_last_write_wins base_cfg (Some override_cfg)
                            cli_opts "lr"))
              override_cfg (PyStr "0.001") _ _ _);
      [|reflexivity|reflexivity].
    apply (bool_decide_unpack _). reflexivity.
  - refine (proj2 (proj2 (merge_last_write_wins base_cfg (Some override_cfg)
                            cli_opts "JK")) _ _).
    + apply (bool_decide_unpack _). reflexivity.
    + intros oc [= <-]. reflexivity.
  - refine (proj2 (proj2 (merge_last_write_wins base_cfg None
                            cli_opts "lr")) _ _).
    + apply (bool_decide_unpack _). reflexivity.
    + intros oc [=].
Defined.

(** ** The task names *)



Example task_names_example :
  task_names_of (PyStr "arxiv , cora_link,") =
  PyList [PyStr "arxiv"; PyStr "cora_link"; PyStr ""].
Proof. reflexivity. Qed.

Lemma quiet_Called {R} (c : extE R) r :
  callee c ∉ ["make_full_dm_list"; "DataModule"; "EvalKit"; "lightning_fit"] ->
  quiet (Called c r).
Proof. done. Qed.

Ltac quiet_call :=
  apply quiet_Called; apply (bool_decide_unpack _); reflexivity.

Lemma init_tasks_quiet params : only quiet (init_tasks params).
Proof. unfold init_tasks. repeat only_step; quiet_call. Qed.

Lemma load_model_quiet params : only quiet (load_model params).
Proof.
  unfold load_model, bin_model. apply only_bind.
  { apply only_out_dim. intros; quiet_call. }
  intros od. repeat only_step; quiet_call.
Qed.

Lemma load_params_builds_nothing args :
  only (fun e => builds e = false) (load_params args).
Proof. unfold load_params. repeat only_step; reflexivity. Qed.

Lemma Forall_lookup_builds (tr : list entry) i e :
  Forall (fun e => builds e = false) tr ->
  tr !! i = Some e -> builds e = true -> False.
Proof.
  intros Hall Hi He. rewrite Forall_lookup in Hall.
  specialize (Hall i e Hi). congruence.
Qed.

(** What the lines before the seed leave: the dict that [setup_exp] was
    given is the merge of the files read and the overrides, and the
    parameter set is that dict after [setup_exp]. *)
Lemma load_params_result (w : env) (args : cli) pre params :
  run w [] (load_params args) = (pre, inr params) ->
  exists base override_config,
    last pre = Some (Called (SetupExp (merged_params base override_config
                                         (opts args))) (inr params))
    /\ (override args = None -> override_config = None).
Proof.
  unfold load_params. rewrite run_bind, run_call.
  destruct (w _ _ (LoadYaml _)) as [ex|base]; [done|]. cbv beta iota.
  rewrite run_bind. destruct (override args) as [path|].
  - rewrite run_fmap, run_call.
    destruct (w _ _ (LoadYaml _)) as [ex|oc]; [done|]. cbv beta iota.
    rewrite run_call. destruct (w _ _ (SetupExp _)) as [ex|d]; [done|].
    intros [= <- <-]. exists base, (Some oc). by split.
  - change (run w ?h (Ret ?x)) with (h, inr (B:=option dict) (A:=exn) x).
    cbv beta iota. rewrite run_call.
    destruct (w _ _ (SetupExp _)) as [ex|d]; [done|].
    intros [= <- <-]. exists base, None. by split.
Qed.

(** C8. In every run, a call that builds a model or a dataset comes after
    the call [set_random_seed(params.seed)], which has returned, and the
    seed is the [seed] of the parameter set that the lines before it
    produced; nothing is built before. *)
Theorem seed_before_construction (w : env) (args : cli) (i : nat) (e : entry) :
  trace w (script args) !! i = Some e ->
  builds e = true ->
  exists (pre : list entry) (params : dict) (seed : pyval) (post : list entry),
    run w [] (load_params args) = (pre, inr params)
    /\ params !! "seed" = Some seed
    /\ trace w (script args)
       = pre ++ Called (SetRandomSeed seed) (inr ()) :: post
    /\ Forall (fun e => builds e = false) pre
    /\ (length pre < i)%nat.
Proof.
  unfold trace, script. rewrite run_bind.
  destruct (only_run _ (load_params args) w []
              (load_params_builds_nothing args)) as (pre & Hpre & Hquiet).
  destruct (run w [] (load_params args)) as [h [ex|params]] eqn:Hload;
    simpl in Hpre; subst h; simpl.
  { intros Hi He. destruct (Forall_lookup_builds _ _ _ Hquiet Hi He). }
  unfold seed_and_run. rewrite run_bind, run_getattr.
  destruct (params !! "seed") as [seed|] eqn:Hseed.
  2: { intros Hi He. destruct (Forall_lookup_builds _ _ _ Hquiet Hi He). }
  rewrite run_bind, run_call.
  destruct (w unit pre (SetRandomSeed seed)) as [ex|[]] eqn:Hw.
  { intros Hi He. exfalso.
    refine (Forall_lookup_builds _ _ _ _ Hi He).
    apply Forall_app. split; [done|]. by repeat constructor. }
  cbv beta iota.
  match goal with
  | |- context [run w ?h ?p] =>
      destruct (run_extends w p h) as [post Hpost]; rewrite Hpost
  end.
  rewrite <-app_assoc. simpl. intros Hi He.
  exists pre, params, seed, post. split_and!; try done.
  destruct (decide (i < length pre)%nat) as [Hlt|Hge].
  { rewrite lookup_app_l in Hi by done.
    destruct (Forall_lookup_builds _ _ _ Hquiet Hi He). }
  destruct (decide (i = length pre)) as [->|Hne]; [|lia].
  rewrite list_lookup_middle in Hi by done.
  injection Hi as <-. discriminate.
Qed.

Lemma seed_before_construction_witness :
  exists (pre : list entry) (params : dict) (seed : pyval) (post : list entry),
    run (calm demo_cfg odd_kind) [] (load_params demo_cli) = (pre, inr params)
    /\ params !! "seed" = Some seed
    /\ trace (calm demo_cfg odd_kind) (script demo_cli)
       = pre ++ Called (SetRandomSeed seed) (inr ()) :: post
    /\ Forall (fun e => builds e = false) pre
    /\ (length pre < 6)%nat.
Proof.
  refine (seed_before_construction (calm demo_cfg odd_kind) demo_cli 6
            (Called (SentenceEncoder (PyStr "ST") (PyInt 32)) (inr 6%nat))
            _ _).
  - vm_compute. reflexivity.
  - reflexivity.
Defined.

Lemma quiet_not_starved e : quiet e -> ~ starved e.
Proof.
  destruct e as [R c r]. destruct c; try (intros _ []).
  intros Hq _. apply Hq. apply (bool_decide_unpack _). reflexivity.
Qed.

Lemma quiet_no_kit e :
  quiet e -> callee_of e <> "EvalKit" /\ callee_of e <> "lightning_fit".
Proof.
  unfold quiet. rewrite !not_elem_of_cons. tauto.
Qed.

Lemma quiet_no_data_module e : quiet e -> callee_of e <> "DataModule".
Proof.
  unfold quiet. rewrite !not_elem_of_cons. tauto.
Qed.

Lemma kit_goal_quiet tr o : Forall quiet tr -> kit_goal (tr, o).
Proof.
  intros Hq Hex. exfalso. simpl in Hex.
  apply Exists_exists in Hex as (e & He & Hs).
  rewrite Forall_forall in Hq. by apply (quiet_not_starved e (Hq e He)).
Qed.

(** A stage that makes quiet calls only: either the run ends in it, or
    it goes on from a quiet history. *)
Lemma stage_quiet {A : Type} (w : env) (m : Prog A) (f : A -> Prog unit) hist :
  only quiet m -> Forall quiet hist ->
  (forall a hist', Forall quiet hist' -> kit_goal (run w hist' (f a))) ->
  kit_goal (run w hist (m ≫= f)).
Proof.
  intros Hm Hh Hf. rewrite run_bind.
  destruct (only_run quiet m w hist Hm) as (post & Hrun & Hpost).
  destruct (run w hist m) as [h [e|a]]; simpl in Hrun; subst h.
  - apply kit_goal_quiet. by apply Forall_app.
  - apply Hf. by apply Forall_app.
Qed.

(** Without a validation split or without a test split, step 4 makes
    the loss and the scorers and then raises [IndexError]. *)
Lemma init_eval_kit_empty td :
  td_val td = [] \/ td_test td = [] ->
  init_eval_kit td
  = make_scorers (td_val td ++ td_test td)
      ≫= (fun '(_, _) => Raise IndexError).
Proof. destruct td as [[|v vs] [|t ts]]; intros [?|?]; done. Qed.

Section scorer_calls_allowed.
Variable P : entry -> Prop.
Hypothesis loss_P : forall r, P (Called BCEWithLogitsLoss r).
Hypothesis scorer_P : forall sc r, P (Called (NewScorer sc) r).

Lemma only_add_scorer evlter dt : only P (add_scorer evlter dt).
Proof.
  rewrite add_scorer_table. destruct (scorer_of dt); repeat only_step.
  apply scorer_P.
Qed.

Lemma only_make_scorers eval_data : only P (make_scorers eval_data).
Proof.
  unfold make_scorers, build_evlter. only_step; [only_step; apply loss_P|].
  only_step; [|constructor]. apply only_for_loop. apply only_add_scorer.
Qed.
End scorer_calls_allowed.

(** The loss and the scorers, whatever the environment answers: no
    [EvalKit] and no [lightning_fit] among the calls, and an exception
    only when a call raised. *)
Lemma run_make_scorers (w : env) (eval_data : list split) hist :
  exists post,
    (run w hist (make_scorers eval_data)).1 = hist ++ post
    /\ Forall (fun e => callee_of e <> "EvalKit"
                        /\ callee_of e <> "lightning_fit") post
    /\ Forall (fun e => ~ starved e) post
    /\ (forall ex, (run w hist (make_scorers eval_data)).2 = inl ex ->
                   Exists (fun e => returned e = false) post).
Proof.
  unfold make_scorers. rewrite run_bind, run_call.
  destruct (w _ hist BCEWithLogitsLoss) as [ex|loss].
  { eexists. split; [reflexivity|]. split_and!.
    - by repeat constructor.
    - repeat constructor. intros Hs; exact Hs.
    - intros _ _. by repeat constructor. }
  cbv beta iota. rewrite run_bind. unfold build_evlter.
  destruct (run_scorer_loop w eval_data []
              (hist ++ [Called BCEWithLogitsLoss (inr loss)]))
    as (post & Hrun & Hcalls & _ & _ & Hfail).
  apply all_scorer_calls in Hcalls.
  exists (Called BCEWithLogitsLoss (inr loss) :: post).
  destruct (run w _ (for_loop add_scorer [] _)) as [h [ex|evlter]];
    simpl in *; subst h; rewrite <-app_assoc; (split; [done|]).
  - split_and!.
    + constructor; [done|]. eapply Forall_impl; [exact Hcalls|].
      intros e He. by destruct (scorer_call_no_kit e He) as (_ & ? & ?).
    + constructor; [intros Hs; exact Hs|]. eapply Forall_impl; [exact Hcalls|].
      intros [R c r] [sc Hsc]. destruct c; try done. intros Hs; exact Hs.
    + intros ex' _. apply Exists_cons_tl. by apply (Hfail ex).
  - split_and!.
    + constructor; [done|]. eapply Forall_impl; [exact Hcalls|].
      intros e He. by destruct (scorer_call_no_kit e He) as (_ & ? & ?).
    + constructor; [intros Hs; exact Hs|]. eapply Forall_impl; [exact Hcalls|].
      intros [R c r] [sc Hsc]. destruct c; try done. intros Hs; exact Hs.
    + done.
Qed.

(** Nothing after the data module asks for datasets again. *)
Lemma after_data_not_starved params gpu_size model train_data td :
  only (fun e => ~ starved e)
       (init_eval_kit td ≫= fun metrics =>
        init_lightning params model train_data metrics td ≫= fun pred_model =>
        fit params gpu_size pred_model metrics).
Proof.
  unfold init_eval_kit, init_lightning, fit.
  apply only_bind.
  { apply only_bind;
      [apply only_make_scorers; intros; intros []|].
    intros [loss evlter]. repeat only_step; intros []. }
  intros metrics. repeat only_step; intros [].
Qed.

Lemma quiet_hist_no_kit h :
  Forall quiet h ->
  Forall (fun e => callee_of e <> "EvalKit" /\ callee_of e <> "lightning_fit")
         h.
Proof. intros Hq. eapply Forall_impl; [done|apply quiet_no_kit]. Qed.

Lemma quiet_hist_no_data_module h :
  Forall quiet h -> ~ Exists (fun e => callee_of e = "DataModule") h.
Proof.
  intros Hq Hex. apply Exists_exists in Hex as (e & He & Hdm).
  rewrite Forall_forall in Hq. by apply (quiet_no_data_module e (Hq e He)).
Qed.

Lemma quiet_hist_not_starved h : Forall quiet h -> ~ Exists starved h.
Proof.
  intros Hq Hex. apply Exists_exists in Hex as (e & He & Hs).
  rewrite Forall_forall in Hq. by apply (quiet_not_starved e (Hq e He)).
Qed.

Lemma not_all_returned tr :
  Exists (fun e => returned e = false) tr ->
  ~ Forall (fun e => returned e = true) tr.
Proof.
  intros Hex Hall. apply Exists_exists in Hex as (e & He & Hf).
  rewrite Forall_forall in Hall. specialize (Hall e He). congruence.
Qed.

(** [main] from a quiet history. *)
Lemma main_kit_goal (w : env) (params : dict) hist :
  Forall quiet hist -> kit_goal (run w hist (main params)).
Proof.
  intros Hh. unfold main.
  apply stage_quiet; [apply only_call; intros; quiet_call|done|].
  intros [device gpu_ids] h1 Hh1. cbv beta iota zeta.
  apply stage_quiet; [apply init_tasks_quiet|done|].
  intros [tasks val_task_index_lst] h2 Hh2. cbv beta iota zeta.
  apply stage_quiet; [apply load_model_quiet|done|].
  intros model h3 Hh3. unfold make_data.
  rewrite run_bind_assoc.
  apply stage_quiet; [apply only_float_list; intros; quiet_call|done|].
  intros data_multiple h4 Hh4. cbv beta. rewrite run_bind_assoc.
  apply stage_quiet; [apply only_float_list; intros; quiet_call|done|].
  intros min_ratio h5 Hh5. cbv beta. rewrite run_bind_assoc.
  apply stage_quiet; [apply only_call; intros; quiet_call|done|].
  intros train_data h Hq. cbv beta.
  pose proof (quiet_hist_no_kit h Hq) as Hkit.
  pose proof (quiet_hist_no_data_module h Hq) as Hdm.
  pose proof (quiet_hist_not_starved h Hq) as Hst.
  rewrite run_bind_assoc, run_bind, run_call.
  destruct (w _ h (MakeFullDmList tasks data_multiple min_ratio train_data))
    as [ex|td]; cbv beta iota.
  { intros Hex. simpl in Hex. apply Exists_app in Hex as [Hex|Hex]; [done|].
    apply Exists_cons in Hex as [[]|Hex]. by apply Exists_nil in Hex. }
  rewrite run_bind_assoc, run_bind, run_getattr.
  destruct (params !! "num_workers") as [num_workers|]; cbv beta iota.
  2: { intros _. simpl. split_and!.
       - apply Forall_app. split; [done|]. by repeat constructor.
       - by eexists.
       - intros Hex. apply Exists_app in Hex as [Hex|Hex]; [done|].
         apply Exists_cons in Hex as [[=]|Hex].
         by apply Exists_nil in Hex. }
  rewrite run_bind_assoc, run_bind, run_call.
  destruct (w _ _ (DataModule td (length gpu_ids) num_workers))
    as [ex|datamodule]; cbv beta iota.
  { intros _. simpl. split_and!.
    - rewrite !Forall_app. split_and!; [done|..]; by repeat constructor.
    - by eexists.
    - intros _ Hall. apply Forall_app in Hall as [_ Hall].
      rewrite Forall_singleton in Hall. discriminate Hall. }
  rewrite run_ret_bind. cbv beta iota.
  destruct (decide (td_val td = [] \/ td_test td = [])) as [Hempty|Hfull].
  - rewrite (init_eval_kit_empty td Hempty), run_bind_assoc, run_bind.
    match goal with
    | |- context [run w ?h0 (make_scorers ?l)] =>
        destruct (run_make_scorers w l h0) as (post & Hrun & Hnk & _ & Hfail);
        destruct (run w h0 (make_scorers l)) as [h' [ex|[loss evlter]]]
    end; simpl in Hrun; subst h'; intros _; simpl.
    + split_and!.
      * rewrite !Forall_app. split_and!; [done|..|done]; by repeat constructor.
      * by eexists.
      * intros _ Hall. apply Forall_app in Hall as [_ Hall].
        destruct (not_all_returned post (Hfail ex eq_refl) Hall).
    + split_and!.
      * rewrite !Forall_app. split_and!; [done|..|done]; by repeat constructor.
      * by eexists.
      * done.
  - match goal with
    | |- kit_goal (run w ?h0 ?p) =>
        destruct (only_run _ p w h0
                    (after_data_not_starved _ _ _ _ _)) as (post & Hrun & Hpost)
    end.
    intros Hex. exfalso. rewrite Hrun in Hex.
    rewrite !Exists_app in Hex. destruct Hex as [[[Hex|Hex]|Hex]|Hex].
    + done.
    + apply Exists_cons in Hex as [Hex|Hex]; [done|].
      by apply Exists_nil in Hex.
    + apply Exists_cons in Hex as [[]|Hex]. by apply Exists_nil in Hex.
    + apply Exists_exists in Hex as (e & He & Hs).
      rewrite Forall_forall in Hpost. by apply (Hpost e He).
Qed.

Lemma load_params_quiet args : only quiet (load_params args).
Proof. unfold load_params. repeat only_step; quiet_call. Qed.

Lemma script_kit_goal (w : env) (args : cli) :
  kit_goal (run w [] (script args)).
Proof.
  unfold script.
  apply stage_quiet; [apply load_params_quiet|done|].
  intros params h1 Hh1. unfold seed_and_run.
  apply stage_quiet; [apply only_getattr|done|].
  intros seed h2 Hh2.
  apply stage_quiet; [apply only_call; intros; quiet_call|done|].
  intros _ h3 Hh3. unfold launch.
  apply stage_quiet; [apply only_call; intros; quiet_call|done|].
  intros _ h4 Hh4. cbv beta zeta.
  apply stage_quiet; [apply only_getattr|done|].
  intros exp_name h5 Hh5.
  apply stage_quiet.
  { apply only_bind; [apply only_getattr|].
    intros v. apply only_format_value. intros; quiet_call. }
  { done. }
  intros llm_name h6 Hh6.
  apply stage_quiet; [apply only_py_iadd_str; intros; quiet_call|done|].
  intros exp_name' h7 Hh7.
  apply stage_quiet; [apply only_call; intros; quiet_call|done|].
  intros _ h8 Hh8. by apply main_kit_goal.
Qed.

(** C9, amended. A dataset without a validation split or without a test
    split makes step 4 raise [IndexError] once the loss and the scorers
    are made, before [EvalKit] is called; and a run of the script in
    which [make_full_dm_list] came back with such a dataset ends with an
    exception, with no call of [EvalKit] and no call of [lightning_fit]
    in it.  The exception is [IndexError] when the data module was built
    and no call raised; a loss or scorer constructor that raises ends
    the run with its own exception first. *)
Theorem empty_split_list_fails (w : env) (args : cli) (td : text_dataset) :
  (td_val td = [] \/ td_test td = [] ->
   init_eval_kit td
   = make_scorers (td_val td ++ td_test td)
       ≫= (fun '(_, _) => Raise IndexError))
  /\ (Exists starved (trace w (script args)) ->
      ends_without_kit (trace w (script args)) (outcome w (script args))).
Proof.
  split.
  - apply init_eval_kit_empty.
  - apply script_kit_goal.
Qed.

Lemma empty_split_list_fails_witness :
  init_eval_kit no_val
  = make_scorers (td_val no_val ++ td_test no_val)
      ≫= (fun '(_, _) => Raise IndexError)
  /\ ends_without_kit (trace (calm demo_cfg no_val) (script demo_cli))
                      (outcome (calm demo_cfg no_val) (script demo_cli)).
Proof.
  destruct (empty_split_list_fails (calm demo_cfg no_val) demo_cli no_val)
    as [Hstage Hrun].
  split.
  - apply Hstage. left. reflexivity.
  - apply Hrun. apply Exists_exists.
    eexists. split; [|].
    + apply list_elem_of_lookup. exists 17%nat. vm_compute. reflexivity.
    + left. reflexivity.
Defined.

Example no_val_run :
  names_of (trace (calm demo_cfg no_val) (script demo_cli)) =
  ["load_yaml"; "setup_exp"; "set_random_seed";
   "set_float32_matmul_precision"; "print"; "get_available_devices";
   "SentenceEncoder"; "load_yaml"; "load_yaml"; "UnifiedTaskConstructor";
   "construct_exp"; "flush_model"; "PyGRGCNEdge"; "bin_model"; "interpreter";
   "interpreter"; "make_train_data"; "make_full_dm_list"; "DataModule";
   "BCEWithLogitsLoss"; "AUROC"]
  /\ outcome (calm demo_cfg no_val) (script demo_cli) = inl IndexError.
Proof. split; vm_compute; reflexivity. Qed.

(** The claim C9 as it is worded fails where a scorer constructor
    refuses its arguments: with no validation split and a test split
    that asks for an accuracy over one class, in an environment in which
    [Accuracy] raises [ValueError] for fewer than two classes, the run
    ends with [ValueError] at the scorer loop, not with [IndexError]. *)
Lemma empty_split_other_exception :
  Exists starved (trace (strict demo_cfg no_val_one_class) (script demo_cli))
  /\ names_of (trace (strict demo_cfg no_val_one_class) (script demo_cli)) =
     ["load_yaml"; "setup_exp"; "set_random_seed";
      "set_float32_matmul_precision"; "print"; "get_available_devices";
      "SentenceEncoder"; "load_yaml"; "load_yaml"; "UnifiedTaskConstructor";
      "construct_exp"; "flush_model"; "PyGRGCNEdge"; "bin_model";
      "interpreter"; "interpreter"; "make_train_data"; "make_full_dm_list";
      "DataModule"; "BCEWithLogitsLoss"; "Accuracy"]
  /\ outcome (strict demo_cfg no_val_one_class) (script demo_cli)
     = inl ValueError
  /\ outcome (strict demo_cfg no_val_one_class) (script demo_cli)
     <> inl IndexError.
Proof.
  split_and!.
  - apply Exists_exists. eexists. split.
    + apply list_elem_of_lookup. exists 17%nat. vm_compute. reflexivity.
    + left. reflexivity.
  - vm_compute. reflexivity.
  - vm_compute. reflexivity.
  - vm_compute. discriminate.
Qed.
(** * Further properties of the script *)

(** ** The scorer list and the arguments of the evaluation kit *)

Lemma omap_scorer_of_filter eval_data :
  length (omap scorer_of eval_data)
  = length (filter (fun dt => Is_true (known_metric (metric dt))) eval_data).
Proof.
  induction eval_data as [|dt l IH]; [done|].
  rewrite omap_scorer_of_cons, filter_cons.
  destruct (known_metric (metric dt)) eqn:Hk.
  - destruct (scorer_of_known dt Hk) as [sc ->].
    rewrite decide_True by done. simpl. by rewrite IH.
  - rewrite (scorer_of_unknown dt Hk).
    by rewrite decide_False by (by intros []).
Qed.

(** X1. In every run the scorer loop calls scorer constructors only:
    those of the table for the splits of a known kind, from left to
    right, and nothing for the other splits.  A loop that returns gives
    the objects these calls made, in their order, so as many scorers as
    there are splits of a known kind; a loop that does not return ended
    at a constructor that raised. *)
Theorem evlter_counts_known_kinds (w : env) (hist : list entry)
  (eval_data : list split) :
  exists post,
    (run w hist (build_evlter eval_data)).1 = hist ++ post
    /\ scorer_call_of <$> post
       = Some <$> take (length post) (omap scorer_of eval_data)
    /\ (forall scorers,
          (run w hist (build_evlter eval_data)).2 = inr scorers ->
          scorers = omap scorer_made_by post
          /\ length scorers
             = length (filter (fun dt => Is_true (known_metric (metric dt)))
                              eval_data)
          /\ Forall (fun e => returned e = true) post)
    /\ (forall ex,
          (run w hist (build_evlter eval_data)).2 = inl ex ->
          Exists (fun e => returned e = false) post).
Proof.
  unfold build_evlter.
  destruct (run_scorer_loop w eval_data [] hist)
    as (post & Hrun & Hcalls & _ & Hok & Hfail).
  exists post. split_and!; try done.
  intros scorers Hs. destruct (Hok scorers Hs) as (-> & Hl & _ & Hr).
  split_and!; [done| |done]. by rewrite Hl, omap_scorer_of_filter.
Qed.

Lemma evlter_counts_known_kinds_witness :
  exists post,
    (run (strict demo_cfg odd_kind) []
         (build_evlter (td_val odd_kind ++ td_test odd_kind))).1 = [] ++ post
    /\ scorer_call_of <$> post
       = Some <$> take (length post)
                       (omap scorer_of (td_val odd_kind ++ td_test odd_kind))
    /\ (forall scorers,
          (run (strict demo_cfg odd_kind) []
               (build_evlter (td_val odd_kind ++ td_test odd_kind))).2
            = inr scorers ->
          scorers = omap scorer_made_by post
          /\ length scorers = 2%nat
          /\ Forall (fun e => returned e = true) post)
    /\ (forall ex,
          (run (strict demo_cfg odd_kind) []
               (build_evlter (td_val odd_kind ++ td_test odd_kind))).2
            = inl ex ->
          Exists (fun e => returned e = false) post).
Proof.
  exact (evlter_counts_known_kinds (strict demo_cfg odd_kind) []
           (td_val odd_kind ++ td_test odd_kind)).
Defined.

(** A run of step 4 that returns ended with the [EvalKit] call, and
    returns what the call made. *)
Lemma init_eval_kit_returns (w : env) (td : text_dataset) hist metrics :
  (run w hist (init_eval_kit td)).2 = inr metrics ->
  exists args,
    last (run w hist (init_eval_kit td)).1
    = Some (Called (EvalKit args) (inr metrics)).
Proof.
  unfold init_eval_kit, make_scorers.
  rewrite run_bind_assoc, run_bind, run_call.
  destruct (w _ hist BCEWithLogitsLoss) as [ex|loss]; [done|].
  cbv beta iota. rewrite run_bind_assoc, run_bind.
  destruct (run w _ (build_evlter _)) as [h [ex|evlter]]; [done|].
  cbv beta iota.
  destruct td as [[|v vs] [|t ts]]; try done.
  set (a := eval_kit_for (TextDataset (v :: vs) (t :: ts)) loss evlter
              (state_name v) (state_name t)).
  change (run w h _) with (run w h (call (EvalKit a))).
  rewrite run_call. destruct (w handle h (EvalKit a)) as [ex|m]; [done|].
  simpl. intros [= <-]. exists a. by rewrite last_snoc.
Qed.

(** X2. In every run, an [EvalKit] call that step 4 makes has aligned
    arguments: metric kinds, callbacks and state names each have one
    entry for each evaluation split, validation splits first; there are
    never more scorers than splits; and the two monitor names are the
    state names at position 0 and at the position of the first test
    split.  A run of step 4 that returns ended with such a call and
    returns the kit it made. *)
Theorem eval_kit_args_aligned (w : env) (hist : list entry)
  (td : text_dataset) :
  exists post,
    (run w hist (init_eval_kit td)).1 = hist ++ post
    /\ (forall e args,
          e ∈ post -> kit_args_of e = Some args ->
          ek_eval_state args
          = (state_name <$> td_val td) ++ (state_name <$> td_test td)
          /\ ek_eval_metric args
             = (metric <$> td_val td) ++ (metric <$> td_test td)
          /\ length (ek_eval_funcs args) = length (ek_eval_state args)
          /\ (length (ek_evlter args) <= length (ek_eval_state args))%nat
          /\ ek_eval_state args !! 0%nat = Some (ek_val_monitor_state args)
          /\ ek_eval_state args !! length (td_val td)
             = Some (ek_test_monitor_state args))
    /\ (forall metrics,
          (run w hist (init_eval_kit td)).2 = inr metrics ->
          exists args,
            last (hist ++ post) = Some (Called (EvalKit args) (inr metrics))).
Proof.
  destruct (init_eval_kit_run w td hist) as (post & Hrun & Hkit).
  exists post. split; [done|]. split.
  2: { intros metrics Hm. rewrite <-Hrun.
       by apply init_eval_kit_returns. }
  intros e args He Hk.
  destruct (Hkit e args He Hk)
    as (loss & evlter & v & t & h0 & h1 & Hv & Ht & -> & Hloop).
  unfold eval_kit_for.
  cbn [ek_eval_state ek_eval_metric ek_eval_funcs ek_evlter
       ek_val_monitor_state ek_test_monitor_state].
  destruct td as [[|v' vs] [|t' ts]]; try done.
  injection Hv as ->. injection Ht as ->. cbn [td_val td_test] in *.
  split_and!.
  - done.
  - by rewrite fmap_app.
  - by rewrite length_fmap, !length_app, !length_fmap.
  - unfold build_evlter in Hloop.
    destruct (run_scorer_loop w ((v :: vs) ++ t :: ts) [] h0)
      as (post' & _ & _ & _ & Hok & _).
    rewrite Hloop in Hok. destruct (Hok evlter eq_refl) as (_ & -> & _).
    pose proof (omap_scorer_of_le ((v :: vs) ++ t :: ts)) as Hle.
    rewrite !length_app, !length_fmap. rewrite length_app in Hle.
    simpl in *. lia.
  - done.
  - rewrite lookup_app_r by (by rewrite length_fmap).
    by rewrite length_fmap, Nat.sub_diag.
Qed.

Lemma eval_kit_args_aligned_witness :
  ek_eval_state (eval_kit_for odd_kind 0 [1; 2]%nat "val_a" "test_a")
  = (state_name <$> td_val odd_kind) ++ (state_name <$> td_test odd_kind)
  /\ (length (ek_evlter (eval_kit_for odd_kind 0 [1; 2]%nat "val_a" "test_a"))
      <= 3)%nat.
Proof.
  destruct (eval_kit_args_aligned (calm demo_cfg odd_kind) [] odd_kind)
    as (post & Hrun & Hkit & _).
  assert (post = (run (calm demo_cfg odd_kind) [] (init_eval_kit odd_kind)).1)
    as -> by (by rewrite Hrun).
  destruct (Hkit (Called (EvalKit (eval_kit_for odd_kind 0 [1; 2]%nat
                                      "val_a" "test_a")) (inr 3%nat))
              (eval_kit_for odd_kind 0 [1; 2]%nat "val_a" "test_a"))
    as (Hstate & _ & _ & Hlen & _).
  - apply list_elem_of_lookup. exists 3%nat. reflexivity.
  - reflexivity.
  - split; [exact Hstate|exact Hlen].
Defined.
(** ** Task names given as one string or as a list *)

Lemma split_no_sep_one c p : Str.mem c p = false -> Str.split c p = [p].
Proof.
  induction p as [|a p IH]; simpl; [done|].
  case_bool_decide; [done|]. simpl. intros Hp. by rewrite IH.
Qed.

Lemma split_app_sep c p rest :
  Str.mem c p = false ->
  Str.split c (p +:+ String c rest) = p :: Str.split c rest.
Proof.
  induction p as [|a p IH]; intros Hp.
  - change (Str.split c (String c rest) = EmptyString :: Str.split c rest).
    simpl. by rewrite bool_decide_eq_true_2.
  - change (Str.split c (String a (p +:+ String c rest))
            = String a p :: Str.split c rest).
    simpl in *. case_bool_decide; [done|]. simpl in Hp. by rewrite IH.
Qed.

(** Cutting a joined list gives the list back. *)
Lemma split_join c ps :
  ps <> [] -> Forall (fun p => Str.mem c p = false) ps ->
  Str.split c (Str.join c ps) = ps.
Proof.
  intros Hne Hall. induction Hall as [|p ps Hp Hps IH]; [done|].
  destruct ps as [|q ps]; [by apply split_no_sep_one|].
  change (Str.split c (p +:+ String c (Str.join c (q :: ps))) = p :: q :: ps).
  rewrite split_app_sep by done. by rewrite IH.
Qed.

Lemma lstrip_clean p : no_leading_space p -> Str.lstrip p = p.
Proof.
  destruct p as [|a p]; [done|]. intros Hp. simpl.
  by rewrite (Hp a eq_refl).
Qed.

Lemma rstrip_clean p : no_trailing_space p -> Str.rstrip p = p.
Proof.
  induction p as [|a p IH]; [done|]. intros Hp. simpl.
  destruct p as [|b p].
  - simpl. by rewrite (Hp a eq_refl).
  - rewrite IH; [done|]. intros x Hx. by apply Hp.
Qed.

Lemma strip_clean p :
  no_leading_space p -> no_trailing_space p -> Str.strip p = p.
Proof.
  intros Hl Hr. unfold Str.strip. by rewrite lstrip_clean, rstrip_clean.
Qed.

Lemma rstrip_blank r : Str.blank r = true -> Str.rstrip r = EmptyString.
Proof.
  induction r as [|a r IH]; [done|]. simpl.
  intros [Ha Hr]%andb_prop. by rewrite IH, Ha.
Qed.

Lemma rstrip_app_blank p r :
  Str.blank r = true -> Str.rstrip (p +:+ r) = Str.rstrip p.
Proof.
  intros Hr. induction p as [|a p IH]; [by apply rstrip_blank|].
  change (Str.rstrip (String a (p +:+ r)) = Str.rstrip (String a p)).
  simpl. by rewrite IH.
Qed.

Lemma lstrip_blank r : Str.blank r = true -> Str.lstrip r = EmptyString.
Proof.
  induction r as [|a r IH]; [done|]. simpl.
  intros [Ha Hr]%andb_prop. by rewrite Ha, IH.
Qed.

Lemma strip_app_blank p r :
  Str.blank r = true -> Str.strip (p +:+ r) = Str.strip p.
Proof.
  intros Hr. unfold Str.strip. induction p as [|a p IH].
  - change (Str.rstrip (Str.lstrip r) = EmptyString).
    by rewrite lstrip_blank.
  - change (Str.rstrip (Str.lstrip (String a (p +:+ r)))
            = Str.rstrip (Str.lstrip (String a p))).
    simpl. destruct (Str.isspace a); [done|].
    change (String a (p +:+ r)) with (String a p +:+ r).
    by apply rstrip_app_blank.
Qed.

Lemma strip_blank_app l p :
  Str.blank l = true -> Str.strip (l +:+ p) = Str.strip p.
Proof.
  intros Hl. unfold Str.strip. f_equal. induction l as [|a l IH]; [done|].
  change (Str.lstrip (String a (l +:+ p)) = Str.lstrip p).
  simpl in *. apply andb_prop in Hl as [-> Hl]. by apply IH.
Qed.

Lemma mem_app c s t : Str.mem c (s +:+ t) = Str.mem c s || Str.mem c t.
Proof.
  induction s as [|a s IH]; [done|].
  change (Str.mem c (String a (s +:+ t))
          = Str.mem c (String a s) || Str.mem c t).
  simpl. by rewrite IH, orb_assoc.
Qed.

Lemma blank_no_comma l : Str.blank l = true -> Str.mem "," l = false.
Proof.
  induction l as [|a l IH]; [done|]. simpl.
  intros [Ha Hl]%andb_prop. rewrite IH by done.
  case_bool_decide; [subst a; discriminate|done].
Qed.

(** X3. A comma-joined string of names that hold no comma and have no
    whitespace at either end is read as the list of these names: the
    string form and the list form of [task_names] agree. *)
Theorem task_names_of_joined (names : list string) :
  names <> [] ->
  Forall (fun p => Str.mem "," p = false
                   /\ no_leading_space p /\ no_trailing_space p) names ->
  task_names_of (PyStr (Str.join "," names)) = PyList (PyStr <$> names).
Proof.
  intros Hne Hall. unfold task_names_of. rewrite split_join; [|done|].
  - f_equal. apply Forall_fmap_ext. eapply Forall_impl; [exact Hall|].
    intros p (_ & Hl & Hr). simpl. by rewrite strip_clean.
  - eapply Forall_impl; [exact Hall|]. by intros p (? & _).
Qed.

Lemma task_names_of_joined_witness :
  task_names_of (PyStr (Str.join "," ["arxiv"; "cora link"; ""]))
  = PyList [PyStr "arxiv"; PyStr "cora link"; PyStr ""].
Proof.
  apply (task_names_of_joined ["arxiv"; "cora link"; ""]); [discriminate|].
  repeat constructor; try reflexivity; intros a [= <-]; reflexivity.
Defined.

(** X4. Whitespace around the names does not matter: padding every name of
    a comma-joined string with whitespace on either side gives the same
    task list. *)
Theorem task_names_ignore_padding (names padded : list string) :
  names <> [] ->
  Forall (fun p => Str.mem "," p = false) names ->
  Forall2 (fun p q => exists l r, Str.blank l = true /\ Str.blank r = true
                                  /\ q = l +:+ p +:+ r) names padded ->
  task_names_of (PyStr (Str.join "," padded))
  = task_names_of (PyStr (Str.join "," names)).
Proof.
  intros Hne Hall Hpad. unfold task_names_of.
  assert (padded <> []) as Hne'.
  { intros ->. apply Forall2_nil_inv_r in Hpad. done. }
  assert (Forall (fun q => Str.mem "," q = false) padded) as Hall'.
  { clear Hne Hne'. induction Hpad as [|p q ps qs (l & r & Hl & Hr & ->) _ IH];
      [constructor|].
    inversion_clear Hall as [|?? Hp Hps]. constructor; [|by apply IH].
    by rewrite !mem_app, Hp, !blank_no_comma. }
  rewrite !split_join by done. f_equal.
  clear Hne Hne' Hall Hall'.
  induction Hpad as [|p q ps qs (l & r & Hl & Hr & ->) _ IH]; [done|].
  rewrite !fmap_cons, IH. do 2 f_equal.
  by rewrite strip_blank_app, strip_app_blank.
Qed.

Lemma task_names_ignore_padding_witness :
  task_names_of (PyStr (Str.join "," [" arxiv"; "  cora_link  "]))
  = task_names_of (PyStr (Str.join "," ["arxiv"; "cora_link"])).
Proof.
  apply (task_names_ignore_padding ["arxiv"; "cora_link"]
           [" arxiv"; "  cora_link  "]); [discriminate|by repeat constructor|].
  constructor; [by exists " ", ""|].
  constructor; [by exists "  ", "  "|]. constructor.
Defined.

(** ** The output dimension when a parameter is missing or of another type *)

(** X5. Both attributes must be there: a parameter set without [emb_dim]
    raises [AttributeError] for it, and one without [rwpe] raises for
    [rwpe] (an absent [rwpe] is not read as [None]); an integer plus a
    string, and [None] as embedding size, raise [TypeError]. *)
Theorem out_dim_errors (params : dict) :
  (params !! "emb_dim" = None ->
   out_dim params = Raise (AttributeError "emb_dim"))
  /\ (is_Some (params !! "emb_dim") -> params !! "rwpe" = None ->
      out_dim params = Raise (AttributeError "rwpe"))
  /\ (forall e s, params !! "emb_dim" = Some (PyInt e) ->
        params !! "rwpe" = Some (PyStr s) -> out_dim params = Raise TypeError)
  /\ (forall rwpe, params !! "emb_dim" = Some PyNone ->
        params !! "rwpe" = Some rwpe ->
        (forall h, rwpe <> PyOpaque h) -> out_dim params = Raise TypeError).
Proof.
  unfold out_dim, getattr. split_and!.
  - by intros ->.
  - by intros [v ->] ->.
  - by intros e s -> ->.
  - intros rwpe -> -> Hop. destruct rwpe; try done. by destruct (Hop h).
Qed.

Lemma out_dim_errors_witness :
  out_dim (delete "rwpe" (jk_params PyNone)) = Raise (AttributeError "rwpe")
  /\ out_dim (<["rwpe" := PyStr "20"]> (jk_params PyNone)) = Raise TypeError.
Proof.
  split.
  - refine (proj1 (proj2 (out_dim_errors (delete "rwpe" (jk_params PyNone))))
              _ _); [by eexists|reflexivity].
  - refine (proj1 (proj2 (proj2 (out_dim_errors
              (<["rwpe" := PyStr "20"]> (jk_params PyNone))))) 768 "20" _ _);
      reflexivity.
Defined.

(** ** [data_multiple] and [min_ratio] *)

Lemma run_float_each (w : env) (l : list string) hist :
  exists post,
    (run w hist (for_each (fun a => call (Interp "float" [PyStr a])) l)).1
      = hist ++ post
    /\ float_arg_of <$> post = Some <$> take (length post) l
    /\ (length post <= length l)%nat
    /\ (forall fs,
          (run w hist (for_each (fun a => call (Interp "float" [PyStr a])) l)).2
            = inr fs ->
          length fs = length l /\ length post = length l)
    /\ (Exists (fun e => returned e = false) post ->
        exists ex,
          (run w hist (for_each (fun a => call (Interp "float" [PyStr a])) l)).2
            = inl ex).
Proof.
  revert hist. induction l as [|a l IH]; intros hist.
  - exists []. simpl. rewrite app_nil_r. split_and!; try done.
    + by intros fs [= <-].
    + by intros ?%Exists_nil.
  - change (for_each ?f (a :: l))
      with (f a ≫= fun y => for_each f l ≫= fun ys => Ret (y :: ys)).
    rewrite run_bind, run_call.
    destruct (w _ hist (Interp "float" [PyStr a])) as [ex|y].
    + eexists. split; [reflexivity|]. simpl. split_and!; try done.
      * lia.
      * by eexists.
    + cbv beta iota. rewrite run_bind.
      destruct (IH (hist ++ [Called (Interp "float" [PyStr a]) (inr y)]))
        as (post & Hrun & Hargs & Hlen & Hok & Hfail).
      destruct (run w _ (for_each _ l)) as [h [ex|ys]]; simpl in *; subst h.
      * exists (Called (Interp "float" [PyStr a]) (inr y) :: post).
        rewrite <-app_assoc. simpl.
        split_and!; try done; [f_equal; exact Hargs|lia|by eexists].
      * exists (Called (Interp "float" [PyStr a]) (inr y) :: post).
        rewrite <-app_assoc. simpl.
        destruct (Hok ys eq_refl) as [Hys Hpost].
        split_and!; try done; [f_equal; exact Hargs|lia|..].
        -- intros fs [= <-]. simpl. by rewrite Hys, Hpost.
        -- intros [[=]|Hex]%Exists_cons. by destruct (Hfail Hex).
Qed.

(** X6. [d_multiple] and [d_min_ratio]: without the attribute the list is
    [[1]], and a value that is not a [str] is taken as it is, in both
    cases without a call.  A [str] is cut at its commas and [float] is
    called on the pieces from left to right and on nothing else; the run
    returns a list with one number for each piece when every call came
    back, and ends with an exception as soon as one did not. *)
Theorem float_list_cases (params : dict) (name : string) :
  (params !! name = None -> float_list params name = Ret (PyList [PyInt 1]))
  /\ (forall v, params !! name = Some v -> isinstance_str v = false ->
        float_list params name = Ret v)
  /\ (forall s w hist, params !! name = Some (PyStr s) ->
      exists post,
        (run w hist (float_list params name)).1 = hist ++ post
        /\ float_arg_of <$> post
           = Some <$> take (length post) (Str.split "," s)
        /\ (length post <= S (Str.count "," s))%nat
        /\ (forall v, (run w hist (float_list params name)).2 = inr v ->
              exists fs, v = PyList fs
                         /\ length fs = S (Str.count "," s)
                         /\ length post = S (Str.count "," s))
        /\ (Exists (fun e => returned e = false) post ->
            exists ex, (run w hist (float_list params name)).2 = inl ex)).
Proof.
  unfold float_list, hasattr, getattr. split_and!.
  - intros ->. by rewrite bool_decide_eq_false_2 by (by intros [? [=]]).
  - intros v -> Hv. rewrite bool_decide_eq_true_2 by (by eexists).
    by destruct v.
  - intros s w hist ->. rewrite bool_decide_eq_true_2 by (by eexists).
    change (Ret (PyStr s) ≫= ?f) with (f (PyStr s)). cbv beta iota.
    rewrite run_fmap, <-(length_split "," s).
    destruct (run_float_each w (Str.split "," s) hist)
      as (post & Hrun & Hargs & Hlen & Hok & Hfail).
    destruct (run w hist (for_each _ _)) as [h [ex|fs]]; simpl in *; subst h.
    + exists post. split_and!; try done. intros _. by eexists.
    + exists post. destruct (Hok fs eq_refl) as [Hfs Hpost].
      split_and!; try done.
      * intros v [= <-]. by exists fs.
      * intros Hex. by destruct (Hfail Hex).
Qed.

Lemma float_list_cases_witness :
  float_list demo_cfg "d_min_ratio" = Ret (PyList [PyInt 1])
  /\ float_list demo_cfg "num_workers" = Ret (PyInt 4)
  /\ exists post,
       (run (calm demo_cfg odd_kind) [] (float_list demo_cfg "d_multiple")).1
         = [] ++ post
       /\ float_arg_of <$> post
          = Some <$> take (length post) (Str.split "," "1,0.5")
       /\ (length post <= S (Str.count "," "1,0.5"))%nat
       /\ (forall v,
             (run (calm demo_cfg odd_kind) []
                  (float_list demo_cfg "d_multiple")).2 = inr v ->
             exists fs, v = PyList fs
                        /\ length fs = S (Str.count "," "1,0.5")
                        /\ length post = S (Str.count "," "1,0.5"))
       /\ (Exists (fun e => returned e = false) post ->
           exists ex,
             (run (calm demo_cfg odd_kind) []
                  (float_list demo_cfg "d_multiple")).2 = inl ex).
Proof.
  split_and!.
  - apply (proj1 (float_list_cases demo_cfg "d_min_ratio")). reflexivity.
  - apply (proj1 (proj2 (float_list_cases demo_cfg "num_workers")) (PyInt 4));
      reflexivity.
  - apply (proj2 (proj2 (float_list_cases demo_cfg "d_multiple"))
             "1,0.5" (calm demo_cfg odd_kind) []). reflexivity.
Defined.

(** ** The lines between the parameter set and [main] *)




(** X8. With [str] values of [exp_name] and [llm_name], the lines after the
    seed print, and pass to [main], the parameter set in which
    [exp_name] has the suffix "_" + [llm_name] + "_ofa1" and
    [log_project] is "full_cdm", whatever it was; every other parameter
    is as before. *)
Theorem exp_name_gets_suffix (params : dict) (exp_name llm_name : string) :
  params !! "exp_name" = Some (PyStr exp_name) ->
  params !! "llm_name" = Some (PyStr llm_name) ->
  let params' :=
    <["exp_name" := PyStr (exp_name +:+ "_" +:+ llm_name +:+ "_ofa1")]>
      (<["log_project" := PyStr "full_cdm"]> params) in
  launch params
  = Call (SetFloat32MatmulPrecision "high")
         (fun _ => Call (Print params') (fun _ => main params'))
  /\ params' !! "log_project" = Some (PyStr "full_cdm")
  /\ forall k, k <> "exp_name" -> k <> "log_project" ->
               params' !! k = params !! k.
Proof.
  intros Hexp Hllm params'. split_and!.
  - unfold launch, getattr.
    rewrite !lookup_insert_ne by done. rewrite Hexp, Hllm. done.
  - unfold params'. rewrite lookup_insert_ne by done.
    by rewrite lookup_insert_eq.
  - intros k Hk1 Hk2. unfold params'. by rewrite !lookup_insert_ne.
Qed.

Lemma exp_name_gets_suffix_witness :
  launch demo_cfg
  = Call (SetFloat32MatmulPrecision "high")
      (fun _ =>
         Call (Print (<["exp_name" := PyStr "pretrain_ST_ofa1"]>
                        (<["log_project" := PyStr "full_cdm"]> demo_cfg)))
           (fun _ => main (<["exp_name" := PyStr "pretrain_ST_ofa1"]>
                             (<["log_project" := PyStr "full_cdm"]> demo_cfg)))).
Proof.
  refine (proj1 (exp_name_gets_suffix demo_cfg "pretrain" "ST" _ _));
    reflexivity.
Defined.

(** X9. When [params.exp_name += f"_{params.llm_name}_ofa1"] cannot be
    done the script ends there, after the seed and the matmul precision
    were set and before anything is printed or [main] is entered.  A
    parameter set without [exp_name] gives [AttributeError] for
    [exp_name].  One with [exp_name] and without [llm_name] gives
    [AttributeError] for [llm_name], whatever [exp_name] is.  An
    [exp_name] that is [None], a boolean or an integer gives [TypeError]
    when [llm_name] is a string, [None], a boolean or an integer; with
    any other [llm_name] the run still ends with an exception, and
    nothing is called but [set_float32_matmul_precision] and the
    interpreter, for the text of [llm_name]. *)
Theorem exp_name_not_a_string (w : env) (hist : list entry) (params : dict) :
  (params !! "exp_name" = None ->
   launch params = Call (SetFloat32MatmulPrecision "high")
                        (fun _ => Raise (AttributeError "exp_name")))
  /\ (forall v,
        params !! "exp_name" = Some v ->
        params !! "llm_name" = None ->
        launch params = Call (SetFloat32MatmulPrecision "high")
                             (fun _ => Raise (AttributeError "llm_name")))
  /\ (forall v l,
        params !! "exp_name" = Some v ->
        params !! "llm_name" = Some l ->
        v = PyNone \/ (exists b, v = PyBool b) \/ (exists z, v = PyInt z) ->
        (exists s, l = PyStr s) \/ l = PyNone
        \/ (exists b, l = PyBool b) \/ (exists z, l = PyInt z) ->
        launch params = Call (SetFloat32MatmulPrecision "high")
                             (fun _ => Raise TypeError))
  /\ (forall v l,
        params !! "exp_name" = Some v ->
        params !! "llm_name" = Some l ->
        v = PyNone \/ (exists b, v = PyBool b) \/ (exists z, v = PyInt z) ->
        exists post ex,
          run w hist (launch params) = (hist ++ post, inl ex)
          /\ names_of post
             `prefix_of` ["set_float32_matmul_precision"; "interpreter"]).
Proof.
  split_and!.
  - intros Hexp. unfold launch, getattr.
    rewrite !lookup_insert_ne by done. by rewrite Hexp.
  - intros v Hexp Hllm. unfold launch, getattr.
    rewrite !lookup_insert_ne by done. by rewrite Hexp, Hllm.
  - intros v l Hexp Hllm Hv Hl. unfold launch, getattr.
    rewrite !lookup_insert_ne by done. rewrite Hexp, Hllm.
    destruct Hl as [[s ->]|[->|[[b ->]|[z ->]]]];
      by destruct Hv as [->|[[b' ->]|[z' ->]]].
  - intros v l Hexp Hllm Hv.
    assert (forall s k, py_iadd_str v s ≫= k = (Raise TypeError : Prog unit))
      as Hadd.
    { intros s k. by destruct Hv as [->|[[b ->]|[z ->]]]. }
    unfold launch. rewrite run_bind, run_call.
    destruct (w _ hist (SetFloat32MatmulPrecision "high")) as [ex|[]].
    { eexists [_], ex. split; [done|]. by eexists [_]. }
    cbv beta iota zeta. rewrite run_bind, run_getattr.
    rewrite lookup_insert_ne, Hexp by done. cbv beta iota.
    rewrite run_bind_assoc, run_bind, run_getattr.
    rewrite lookup_insert_ne, Hllm by done. cbv beta iota.
    set (h := hist ++ _).
    assert (forall s : string,
      exists post ex,
        run w h (Ret s ≫= fun llm_name =>
                 exp_name ← py_iadd_str v ("_" +:+ llm_name +:+ "_ofa1");
                 call (Print (<["exp_name" := exp_name]>
                                (<["log_project" := PyStr "full_cdm"]> params)));;
                 main (<["exp_name" := exp_name]>
                         (<["log_project" := PyStr "full_cdm"]> params)))
        = (hist ++ post, inl ex)
        /\ names_of post
           `prefix_of` ["set_float32_matmul_precision"; "interpreter"])
      as Hplain.
    { intros s. rewrite run_ret_bind, Hadd.
      eexists [_], TypeError. split; [done|]. by eexists [_]. }
    assert (forall l' : pyval,
      format_value l'
      = (r ← call (Interp "format" [l']);
         match r with PyStr s => Ret s | _ => Raise TypeError end) ->
      exists post ex,
        run w h (format_value l' ≫= fun llm_name =>
                 exp_name ← py_iadd_str v ("_" +:+ llm_name +:+ "_ofa1");
                 call (Print (<["exp_name" := exp_name]>
                                (<["log_project" := PyStr "full_cdm"]> params)));;
                 main (<["exp_name" := exp_name]>
                         (<["log_project" := PyStr "full_cdm"]> params)))
        = (hist ++ post, inl ex)
        /\ names_of post
           `prefix_of` ["set_float32_matmul_precision"; "interpreter"])
      as Hcall.
    { intros l' ->. rewrite run_bind_assoc, run_bind, run_call.
      destruct (w _ h (Interp "format" [l'])) as [ex|r].
      { eexists [_; _], ex. split; [unfold h; by rewrite <-app_assoc|]. done. }
      cbv beta iota.
      assert (forall h',
        run w h' (match r with PyStr s => Ret s | _ => Raise TypeError end
                  ≫= fun llm_name =>
                  exp_name ← py_iadd_str v ("_" +:+ llm_name +:+ "_ofa1");
                  call (Print (<["exp_name" := exp_name]>
                                 (<["log_project" := PyStr "full_cdm"]> params)));;
                  main (<["exp_name" := exp_name]>
                          (<["log_project" := PyStr "full_cdm"]> params)))
        = (h', inl TypeError)) as Hex.
      { intros h'. destruct r; try done. by rewrite run_ret_bind, Hadd. }
      rewrite Hex. eexists [_; _], TypeError.
      split; [unfold h; by rewrite <-app_assoc|]. done. }
    destruct l as [|b|z|s|l|n]; first [apply Hplain|by apply Hcall].
Qed.

Lemma exp_name_not_a_string_witness :
  launch (<["exp_name" := PyInt 3]> demo_cfg)
  = Call (SetFloat32MatmulPrecision "high") (fun _ => Raise TypeError)
  /\ launch (delete "exp_name" demo_cfg)
     = Call (SetFloat32MatmulPrecision "high")
            (fun _ => Raise (AttributeError "exp_name"))
  /\ launch (<["exp_name" := PyInt 3]> (delete "llm_name" demo_cfg))
     = Call (SetFloat32MatmulPrecision "high")
            (fun _ => Raise (AttributeError "llm_name")).
Proof.
  split_and!.
  - refine (proj1 (proj2 (proj2
              (exp_name_not_a_string (calm demo_cfg odd_kind) []
                 (<["exp_name" := PyInt 3]> demo_cfg))))
              (PyInt 3) (PyStr "ST") _ _ _ _);
      [reflexivity|reflexivity| |].
    + right. right. by exists 3.
    + left. by exists "ST".
  - refine (proj1 (exp_name_not_a_string (calm demo_cfg odd_kind) []
                     (delete "exp_name" demo_cfg)) _).
    reflexivity.
  - refine (proj1 (proj2
              (exp_name_not_a_string (calm demo_cfg odd_kind) []
                 (<["exp_name" := PyInt 3]> (delete "llm_name" demo_cfg))))
              (PyInt 3) _ _); reflexivity.
Defined.

(** ** The order of the calls *)

Lemma emits_bind {A B : Type} (m : Prog A) (f : A -> Prog B) ns1 ns2 ns :
  emits m ns1 -> (forall a, emits (f a) ns2) -> ns = ns1 ++ ns2 ->
  emits (m ≫= f) ns.
Proof.
  intros Hm Hf ->. induction Hm as [a|e ns|R c k ns Hc Hk IH|op args k ns Hk IH].
  - exact (Hf a).
  - exact (emits_Raise e _).
  - change (Call c k ≫= f) with (Call c (fun r => k r ≫= f)).
    simpl. by constructor.
  - change (Call (Interp op args) k ≫= f)
      with (Call (Interp op args) (fun r => k r ≫= f)).
    by constructor.
Qed.

Lemma emits_call {R : Type} (c : extE R) :
  callee c <> "interpreter" -> emits (call c) [callee c].
Proof. intros Hc. constructor; [done|]. constructor. Qed.

Lemma emits_interp op args : emits (call (Interp op args)) [].
Proof. constructor. constructor. Qed.

Lemma emits_getattr params name : emits (getattr params name) [].
Proof. unfold getattr. destruct (params !! name); constructor. Qed.


Lemma emits_silent_bind {A B : Type} (m : Prog A) (f : A -> Prog B) ns :
  emits m [] -> (forall a, emits (f a) ns) -> emits (m ≫= f) ns.
Proof. intros Hm Hf. by apply (emits_bind m f [] ns). Qed.

Lemma emits_call_bind {R B : Type} (c : extE R) (f : R -> Prog B) n ns :
  callee c = n -> n <> "interpreter" -> (forall r, emits (f r) ns) ->
  emits (call c ≫= f) (n :: ns).
Proof.
  intros <- Hc Hf. apply (emits_bind (call c) f [callee c] ns); [|done..].
  by apply emits_call.
Qed.




Lemma emits_for_each_interp {A : Type} (f : A -> Prog pyval) l :
  (forall a, emits (f a) []) -> emits (for_each f l) [].
Proof.
  intros Hf. induction l as [|a l IH]; [constructor|].
  change (emits (f a ≫= fun y => for_each f l ≫= fun ys => Ret (y :: ys)) []).
  apply emits_silent_bind; [done|]. intros y.
  apply emits_silent_bind; [done|]. constructor.
Qed.

Lemma emits_float_list params name : emits (float_list params name) [].
Proof.
  unfold float_list. destruct (hasattr params name); [|constructor].
  apply emits_silent_bind; [apply emits_getattr|].
  intros [| | |s| |]; try constructor.
  apply (emits_silent_bind _ (fun a => Ret (PyList a))); [|constructor].
  apply emits_for_each_interp. intros a. apply emits_interp.
Qed.

Ltac emits_step :=
  lazymatch goal with
  | |- emits (getattr _ _ ≫= _) _ =>
      apply emits_silent_bind; [apply emits_getattr|intros]
  | |- emits (call _ ≫= _) _ =>
      apply emits_call_bind; [reflexivity|discriminate|intros]
  | |- emits (call _) _ => apply emits_call; discriminate
  | |- emits (Ret _) _ => constructor
  | |- emits (match ?x with _ => _ end) _ => destruct x
  end.



Lemma make_data_emits params gpu_size tasks v :
  emits (make_data params gpu_size tasks v)
        ["make_train_data"; "make_full_dm_list"; "DataModule"].
Proof.
  unfold make_data.
  apply emits_silent_bind; [apply emits_float_list|]. intros dm.
  apply emits_silent_bind; [apply emits_float_list|]. intros mr.
  repeat emits_step.
Qed.



























Example calm_run_order :
  visible (trace (calm demo_cfg odd_kind) (script demo_cli))
  = script_calls demo_cli odd_kind.
Proof. vm_compute. reflexivity. Qed.
(** ** What the training driver is given *)

Lemma knows_app facts hist post :
  knows facts hist -> Forall no_fit post -> knows facts (hist ++ post).
Proof.
  intros [Hh Hf] Hpost. split; [by apply Forall_app|].
  eapply Forall_impl; [exact Hf|]. intros e He. apply elem_of_app. by left.
Qed.

Lemma knows_snoc facts hist e :
  knows facts hist -> no_fit e -> knows (e :: facts) (hist ++ [e]).
Proof.
  intros Hk He. destruct (knows_app facts hist [e] Hk) as [Hh Hf];
    [by repeat constructor|].
  split; [done|]. constructor; [|done].
  apply elem_of_app. right. by apply list_elem_of_singleton.
Qed.

Lemma fit_goal_fail hist ex : Forall no_fit hist -> fit_goal (hist, inl ex).
Proof.
  intros Hh e pm dm mt st He Hfit. simpl in He.
  rewrite Forall_forall in Hh. specialize (Hh e He).
  unfold no_fit in Hh. congruence.
Qed.

(** A stage without a call of [lightning_fit]. *)
Lemma stage_no_fit {A : Type} (w : env) facts (m : Prog A)
  (f : A -> Prog unit) hist :
  only no_fit m -> knows facts hist ->
  (forall a hist', knows facts hist' -> fit_goal (run w hist' (f a))) ->
  fit_goal (run w hist (m ≫= f)).
Proof.
  intros Hm Hk Hf. rewrite run_bind.
  destruct (only_run no_fit m w hist Hm) as (post & Hrun & Hpost).
  destruct (run w hist m) as [h [e|a]]; simpl in Hrun; subst h.
  - apply fit_goal_fail. by apply (knows_app facts).
  - apply Hf. by apply knows_app.
Qed.

(** A call whose answer is kept in mind. *)
Lemma call_no_fit {R : Type} (w : env) facts (c : extE R)
  (f : R -> Prog unit) hist :
  (forall r, no_fit (Called c r)) -> knows facts hist ->
  (forall r hist', knows (Called c (inr r) :: facts) hist' ->
                   fit_goal (run w hist' (f r))) ->
  fit_goal (run w hist (call c ≫= f)).
Proof.
  intros Hc Hk Hf. rewrite run_bind, run_call.
  destruct (w R hist c) as [e|r].
  - apply fit_goal_fail. by apply (knows_app facts hist [_] Hk), Forall_singleton.
  - apply Hf. by apply knows_snoc.
Qed.

Lemma init_tasks_no_fit params : only no_fit (init_tasks params).
Proof. unfold init_tasks. repeat only_step; reflexivity. Qed.

Lemma load_model_no_fit params : only no_fit (load_model params).
Proof.
  unfold load_model, bin_model. apply only_bind.
  { apply only_out_dim. reflexivity. }
  intros od. repeat only_step; reflexivity.
Qed.

Ltac no_fit_stage tac :=
  rewrite ?run_bind_assoc;
  eapply stage_no_fit; [tac|eassumption|]; cbv beta.

Ltac no_fit_getattr := no_fit_stage ltac:(apply only_getattr).

Ltac no_fit_call :=
  no_fit_stage ltac:(apply only_call; reflexivity).

Ltac no_fit_fact :=
  rewrite ?run_bind_assoc;
  eapply call_no_fit; [reflexivity|eassumption|]; cbv beta.

Lemma main_fit_goal (w : env) (params : dict) hist :
  Forall no_fit hist -> fit_goal (run w hist (main params)).
Proof.
  intros Hh. assert (knows [] hist) as Hk by (by split). clear Hh.
  unfold main.
  no_fit_fact. intros [device gpu_ids] h1 Hk1. cbv beta iota zeta.
  no_fit_stage ltac:(apply init_tasks_no_fit).
  intros [tasks val_task_index_lst] h2 Hk2. cbv beta iota zeta.
  no_fit_stage ltac:(apply load_model_no_fit).
  intros model h3 Hk3. unfold make_data.
  no_fit_stage ltac:(apply only_float_list; reflexivity).
  intros data_multiple h4 Hk4.
  no_fit_stage ltac:(apply only_float_list; reflexivity).
  intros min_ratio h5 Hk5.
  no_fit_call. intros train_data h6 Hk6.
  no_fit_call. intros td h7 Hk7.
  no_fit_getattr. intros num_workers h8 Hk8.
  no_fit_fact. intros dmh h9 Hk9. rewrite run_ret_bind. cbv beta iota.
  clear Hk Hk1 Hk2 Hk3 Hk4 Hk5 Hk6 Hk7 Hk8. unfold init_eval_kit. cbv zeta.
  no_fit_stage ltac:(apply only_make_scorers; intros; reflexivity).
  intros [loss evlter] hs Hks. cbv beta iota.
  no_fit_stage ltac:(apply only_index0). intros val_monitor h10 Hk10.
  no_fit_stage ltac:(apply only_index0). intros test_monitor h11 Hk11.
  no_fit_fact. intros metrics h12 Hk12.
  clear Hk9 Hks Hk10 Hk11. unfold init_lightning.
  no_fit_call. intros parameters h13 Hk13.
  no_fit_getattr. intros lr h14 Hk14.
  no_fit_getattr. intros l2 h15 Hk15.
  no_fit_call. intros optimizer h16 Hk16.
  no_fit_call. intros scheduler h17 Hk17.
  no_fit_call. intros exp_config h18 Hk18.
  no_fit_call. intros _ h19 Hk19.
  no_fit_call. intros _ h20 Hk20.
  no_fit_fact. intros pred_model h21 Hk21.
  clear Hk12 Hk13 Hk14 Hk15 Hk16 Hk17 Hk18 Hk19 Hk20. unfold fit.
  rewrite run_bind, run_getattr, lookup_insert_eq. cbv beta iota.
  no_fit_getattr. intros num_epochs h22 Hk22.
  no_fit_getattr. intros load_best h23 Hk23.
  no_fit_getattr. intros test_rep h24 Hk24.
  no_fit_getattr. intros val_interval h Hkn.
  clear Hk21 Hk22 Hk23 Hk24.
  rewrite run_bind, run_call. destruct Hkn as [Hh Hfacts].
  apply Forall_cons in Hfacts as [Hpl Hfacts].
  apply Forall_cons in Hfacts as [Hkit Hfacts].
  apply Forall_cons in Hfacts as [Hdm Hfacts].
  apply Forall_cons in Hfacts as [Hdev _].
  assert (forall r o,
    fit_goal
      (h ++ [Called (LightningFit pred_model (PyOpaque dmh) metrics num_epochs
                       (strategy (length gpu_ids)) false load_best 1
                       test_rep val_interval) r], o))
    as Hend.
  { intros r o e pm dm mt st He Hfit. simpl in He.
    apply elem_of_app in He as [He|He].
    { rewrite Forall_forall in Hh. specialize (Hh e He).
      unfold no_fit in Hh. congruence. }
    apply list_elem_of_singleton in He. subst e. simpl in Hfit.
    injection Hfit as <- <- <- <-. simpl.
    eexists device, gpu_ids, td, num_workers, dmh, _, exp_config, model.
    split_and!; try done; try (apply elem_of_app; by left).
    by destruct td. }
  destruct (w _ h (LightningFit _ _ _ _ _ _ _ _ _ _)) as [ex|r].
  - apply Hend.
  - apply Hend.
Qed.

Lemma load_params_no_fit args : only no_fit (load_params args).
Proof. unfold load_params. repeat only_step; reflexivity. Qed.

Lemma script_fit_goal (w : env) (args : cli) :
  fit_goal (run w [] (script args)).
Proof.
  assert (knows [] []) as Hk by (by split).
  unfold script.
  no_fit_stage ltac:(apply load_params_no_fit).
  intros params h1 Hk1. unfold seed_and_run.
  no_fit_getattr. intros seed h2 Hk2.
  no_fit_call. intros _ h3 Hk3. unfold launch.
  no_fit_call. intros _ h4 Hk4. cbv zeta.
  no_fit_getattr. intros exp_name h5 Hk5.
  no_fit_getattr. intros llm h5' Hk5'.
  no_fit_stage ltac:(apply only_format_value; reflexivity).
  intros llm_name h6 Hk6.
  no_fit_stage ltac:(apply only_py_iadd_str; reflexivity).
  intros exp_name' h7 Hk7.
  no_fit_call. intros _ h8 Hk8. apply main_fit_goal. by destruct Hk8.
Qed.

(** X11. In every run, what [lightning_fit] is given was made in that run:
    the strategy is the one for the number of devices that
    [get_available_devices] found, the data module is the one built for
    that number of devices and stored in [params.datamodule], the
    evaluation kit is the one built for the state names of that data
    module's datasets, and the model is the lightning module built
    around that kit. *)
Theorem fit_gets_what_was_built (w : env) (args : cli) (e : entry)
  (model : handle) (datamodule : pyval) (metrics : handle)
  (strategy_name : string) :
  e ∈ trace w (script args) ->
  fit_args_of e = Some (model, datamodule, metrics, strategy_name) ->
  built_for_fit (trace w (script args)) model datamodule metrics strategy_name.
Proof. apply script_fit_goal. Qed.

Lemma fit_gets_what_was_built_witness :
  built_for_fit (trace (calm demo_cfg odd_kind) (script demo_cli))
                29%nat (PyOpaque 18) 22%nat "deepspeed_stage_2".
Proof.
  refine (fit_gets_what_was_built (calm demo_cfg odd_kind) demo_cli
            (Called (LightningFit 29 (PyOpaque 18) 22 (PyInt 50)
                       "deepspeed_stage_2" false (PyBool false) 1
                       (PyInt 1) (PyInt 1))
                    (inr (PyOpaque 30, PyOpaque 31)))
            29%nat (PyOpaque 18) 22%nat "deepspeed_stage_2" _ _).
  - apply list_elem_of_lookup. exists 30%nat. vm_compute. reflexivity.
  - reflexivity.
Defined.
(** ** Where the parameter set comes from *)


